(** * Duty-cycle aggregation of buildbot's slave status page

    A shallow embedding of [between], [add_to_buckets] and
    [determine_duty_cycle] from [master/buildbot/status/web/slaves.py],
    followed by the properties of the interval-to-bucket aggregation, and
    of the pages and action resources of the same module.

    Modelling conventions.
    - Timestamps and durations are Python integers, embedded as [Z]
      (unbounded, so no wrap-around).  The file is Python 2 (it uses
      [urllib.quote] and has no [from __future__ import division]), hence
      [/=] on integers is floor division, which is [Z.div].
    - The accumulator [buckets] is a Python list that is updated by index;
      it is a [list Z] with stdpp's lookup and insert, and an index outside
      the list raises [IndexError] as in Python.
    - Exceptions are threaded through the [result] monad.
    - [util.now()] is read once by [determine_duty_cycle]; its value is the
      explicit argument [now].  The status provider is a record with the
      accessors the function calls; [getTimes()] gives a pair of concrete
      timestamps, and the generator of the finished builds is the finite
      list of the builds it yields. *)

From Stdlib Require Import ZArith Lia Sorted.
From stdpp Require Import base list strings gmap.

Local Open Scope Z_scope.

(** ** Python values and exceptions *)

(** The values that the modelled functions return: [between] returns
    [True] or falls off its end ([None]); [determine_duty_cycle] returns
    its list [buckets]. *)
Inductive pyval : Type :=
  | PyNone
  | PyTrue
  | PyList (xs : list Z).

(** Python truthiness, as used by [if], [and] and [elif]. *)
Definition truthy (v : pyval) : bool :=
  match v with
  | PyNone => false
  | PyTrue => true
  | PyList xs => negb (bool_decide (xs = []))
  end.

Inductive exn : Type :=
  | IndexError
  | ZeroDivisionError.

Inductive result (A : Type) : Type :=
  | Ok (a : A)
  | Raise (e : exn).
Arguments Ok {A} a.
Arguments Raise {A} e.

#[global] Instance result_ret : MRet result := fun _ a => Ok a.
#[global] Instance result_bind : MBind result := fun _ _ f m =>
  match m with
  | Ok a => f a
  | Raise e => Raise e
  end.

(** A [for x in xs: body] loop over a state [S], stopping at the first
    exception. *)
Fixpoint for_each {A S : Type} (xs : list A) (body : S -> A -> result S)
    (s : S) : result S :=
  match xs with
  | [] => Ok s
  | x :: xs' => s' ← body s x; for_each xs' body s'
  end.

(** [range(n)] for an integer [n]: empty when [n <= 0]. *)
Definition range (n : Z) : list nat := seq 0 (Z.to_nat n).

(** ** [between] *)

(** [def between(a, n, b): if a <= n and n < b: return True] *)
Definition between (a n b : Z) : pyval :=
  if (a <=? n) && (n <? b) then PyTrue else PyNone.

(** ** [add_to_buckets] *)

(** [buckets[n] += v]: reads the entry (raising [IndexError] outside the
    list) and writes the sum back. *)
Definition iadd (buckets : list Z) (n : nat) (v : Z) : result (list Z) :=
  match buckets !! n with
  | Some x => Ok (<[n := x + v]> buckets)
  | None => Raise IndexError
  end.

(** One iteration of the [for n in range(num_buckets)] loop. *)
Definition bucket_step (bucket_size start end_ now : Z)
    (buckets : list Z) (n : nat) : result (list Z) :=
  let bucket_start := now - (Z.of_nat n + 1) * bucket_size in
  let bucket_end := now - Z.of_nat n * bucket_size in
  let start_before_bucket := start <? bucket_start in
  let start_after_bucket := start >? bucket_end in
  let start_in_bucket := between bucket_start start bucket_end in
  let end_before_bucket := end_ <? bucket_start in
  let end_after_bucket := end_ >? bucket_end in
  let end_in_bucket := between bucket_start end_ bucket_end in
  if end_before_bucket || start_after_bucket then Ok buckets
  else if truthy start_in_bucket && truthy end_in_bucket then
    iadd buckets n (end_ - start)
  else if truthy start_in_bucket then
    iadd buckets n (bucket_end - start)
  else if truthy end_in_bucket then
    iadd buckets n (end_ - bucket_start)
  else if start_before_bucket && end_after_bucket then
    iadd buckets n 1
  else Ok buckets.

Definition add_to_buckets (num_buckets : Z) (buckets : list Z)
    (bucket_size start end_ now : Z) : result (list Z) :=
  for_each (range num_buckets) (bucket_step bucket_size start end_ now) buckets.

(** ** The status provider *)

Record Build : Type := {
  getSlavename : string;
  getTimes : Z * Z
}.

Record Builder : Type := {
  getName : string;
  (** the names [bs.getName()] of the slaves of the builder *)
  getSlaves : list string;
  getCurrentBuilds : list Build
}.

Record Status : Type := {
  getBuilderNames : list string;
  getBuilder : string -> Builder;
  (** [generateFinishedBuilds(builders=...)], most recent first *)
  generateFinishedBuilds : list string -> list Build
}.

(** ** [determine_duty_cycle] *)

(** Lines 262-267: the builders that list the slave, once per listing. *)
Definition my_builders (name : string) (status : Status) : list Builder :=
  flat_map (fun bname =>
    let b := getBuilder status bname in
    flat_map (fun bs => if String.eqb bs name then [b] else []) (getSlaves b))
    (getBuilderNames status).

(** Lines 272-275, the loop over the builds of one builder: every build
    of the slave is added, none is skipped. *)
Definition add_builds (name : string) (num_buckets bucket_size now : Z)
    (builds : list Build) (buckets : list Z) : result (list Z) :=
  for_each builds (fun buckets cb =>
    if String.eqb (getSlavename cb) name then
      let '(start, end_) := getTimes cb in
      add_to_buckets num_buckets buckets bucket_size start end_ now
    else Ok buckets) buckets.

(** Lines 271-275. *)
Definition current_loop (name : string) (num_buckets bucket_size now : Z)
    (builders : list Builder) (buckets : list Z) : result (list Z) :=
  for_each builders (fun buckets b =>
    add_builds name num_buckets bucket_size now (getCurrentBuilds b) buckets)
    buckets.

(** Lines 277-282: the sweep over the finished builds, with its [break]. *)
Fixpoint finished_loop (name : string) (num_buckets bucket_size now : Z)
    (bucket_reach : Z) (rbs : list Build) (buckets : list Z)
    : result (list Z) :=
  match rbs with
  | [] => Ok buckets
  | rb :: rest =>
    if String.eqb (getSlavename rb) name then
      let '(start, end_) := getTimes rb in
      if end_ <? bucket_reach then Ok buckets
      else
        buckets' ← add_to_buckets num_buckets buckets bucket_size start end_ now;
        finished_loop name num_buckets bucket_size now bucket_reach rest buckets'
    else finished_loop name num_buckets bucket_size now bucket_reach rest buckets
  end.

(** [buckets[n] /= bucket_size] on Python 2 integers. *)
Definition idiv (buckets : list Z) (n : nat) (d : Z) : result (list Z) :=
  match buckets !! n with
  | Some x =>
    if d =? 0 then Raise ZeroDivisionError else Ok (<[n := x / d]> buckets)
  | None => Raise IndexError
  end.

(** Lines 284-285. *)
Definition normalize (num_buckets bucket_size : Z) (buckets : list Z)
    : result (list Z) :=
  for_each (range num_buckets) (fun buckets n => idiv buckets n bucket_size)
    buckets.

(** The local [buckets] after line 282, for the locals [num_buckets] and
    [bucket_size] of the function. *)
Definition duty_cycle_totals (num_buckets bucket_size now : Z)
    (name : string) (status : Status) : result (list Z) :=
  let buckets := replicate (Z.to_nat num_buckets) 0 in
  let bucket_reach := now - num_buckets * bucket_size in
  let builders := my_builders name status in
  buckets ← current_loop name num_buckets bucket_size now builders buckets;
  finished_loop name num_buckets bucket_size now bucket_reach
    (generateFinishedBuilds status (map getName builders)) buckets.

(** The local [buckets] when the function ends. *)
Definition duty_cycle_buckets (num_buckets bucket_size now : Z)
    (name : string) (status : Status) : result (list Z) :=
  buckets ← duty_cycle_totals num_buckets bucket_size now name status;
  normalize num_buckets bucket_size buckets.

(** [determine_duty_cycle(name, status, slave)]: [num_buckets = 7],
    [bucket_size = 60 * 60 * 24]; after the normalisation loop the body
    ends with [return buckets] (line 287). *)
Definition determine_duty_cycle {Slave : Type} (now : Z) (name : string)
    (status : Status) (slave : Slave) : result pyval :=
  let num_buckets := 7 in
  let bucket_size := 60 * 60 * 24 in
  buckets ← duty_cycle_buckets num_buckets bucket_size now name status;
  Ok (PyList buckets).

(** ** The classification made by one loop iteration *)

(** Which branch of the [if]/[elif] chain of lines 239-249 is taken. *)
Inductive overlap : Type :=
  | Disjoint   (* line 239: [continue] *)
  | BothIn     (* line 242 *)
  | StartIn    (* line 244 *)
  | EndIn      (* line 246 *)
  | Spans      (* line 248 *)
  | NoCase.    (* no branch taken *)

Definition classify (bucket_size start end_ now : Z) (n : nat) : overlap :=
  let bucket_start := now - (Z.of_nat n + 1) * bucket_size in
  let bucket_end := now - Z.of_nat n * bucket_size in
  if (end_ <? bucket_start) || (start >? bucket_end) then Disjoint
  else if truthy (between bucket_start start bucket_end)
          && truthy (between bucket_start end_ bucket_end) then BothIn
  else if truthy (between bucket_start start bucket_end) then StartIn
  else if truthy (between bucket_start end_ bucket_end) then EndIn
  else if (start <? bucket_start) && (end_ >? bucket_end) then Spans
  else NoCase.

(** The amount that the taken branch adds to [buckets[n]]. *)
Definition contribution (bucket_size start end_ now : Z) (n : nat) : Z :=
  let bucket_start := now - (Z.of_nat n + 1) * bucket_size in
  let bucket_end := now - Z.of_nat n * bucket_size in
  match classify bucket_size start end_ now n with
  | Disjoint | NoCase => 0
  | BothIn => end_ - start
  | StartIn => bucket_end - start
  | EndIn => end_ - bucket_start
  | Spans => 1
  end.

(** The accumulator after the entries below [k] received [c]. *)
Definition bump (k : nat) (c : nat -> Z) (buckets : list Z) : list Z :=
  imap (fun i x => if bool_decide (i < k)%nat then x + c i else x) buckets.

(** Element-wise sum of two accumulators, and the all-zero accumulator
    [[0] * num_buckets]. *)
Definition sum_buckets (xs ys : list Z) : list Z := zip_with Z.add xs ys.
Definition zeros (num_buckets : Z) : list Z := replicate (Z.to_nat num_buckets) 0.

(** Well-formed builds and the order of the finished builds. *)
Definition well_formed (cb : Build) : Prop := (getTimes cb).1 <= (getTimes cb).2.
Definition ends_descending (rb1 rb2 : Build) : Prop :=
  (getTimes rb2).2 <= (getTimes rb1).2.
Definition of_slave (name : string) (cb : Build) : bool :=
  String.eqb (getSlavename cb) name.

(** What a property [P] of the accumulator and a property [Q] of the
    builds need for the loops to keep [P] without raising. *)
Definition kept_by_add (num_buckets bucket_size now : Z)
    (P : list Z -> Prop) (Q : Build -> Prop) : Prop :=
  forall buckets cb, P buckets -> Q cb ->
    exists t, add_to_buckets num_buckets buckets bucket_size
                (getTimes cb).1 (getTimes cb).2 now = Ok t /\ P t.

(** The accumulator after [normalize] divided the entries below [k]. *)
Definition scaled (k : nat) (d : Z) (buckets : list Z) : list Z :=
  imap (fun i x => if bool_decide (i < k)%nat then x / d else x) buckets.

(** ** Sample inputs

    A reference time later than a week of seconds, and a status provider
    with one builder [b1] that lists the slave, with the given current and
    finished builds. *)
Definition sample_now : Z := 1000000.

Definition build_of (slavename : string) (start end_ : Z) : Build :=
  {| getSlavename := slavename; getTimes := (start, end_) |}.

Definition status_of (name : string) (current finished : list Build) : Status :=
  {| getBuilderNames := ["b1"%string];
     getBuilder := fun _ =>
       {| getName := "b1"; getSlaves := [name]; getCurrentBuilds := current |};
     generateFinishedBuilds := fun _ => finished |}.

(** Finished builds, latest end first: one of another slave, and two of
    the slave that ended more than seven days before [sample_now]. *)
Definition sample_finished : list Build :=
  [ build_of "slave1" (sample_now - 100) (sample_now - 50);
    build_of "slave2" (sample_now - 90000) (sample_now - 3600);
    build_of "slave1" (sample_now - 200000) (sample_now - 100000);
    build_of "slave1" (sample_now - 8 * 86400 - 50) (sample_now - 7 * 86400 - 10);
    build_of "slave1" (sample_now - 9 * 86400) (sample_now - 8 * 86400) ].

(** ** The pages of the slaves

    The rest of the module: the two pages and the two action resources.
    What they take from other modules is kept abstract: the slave object
    with its setters ([SlaveStatus]), the authorisation check and the URL
    builders of [buildbot.status.web.base] ([WebBase]), [int],
    [html.escape] and [get_line_values].  [status.getSlave(name)] looks
    the slave up in a dictionary and raises [KeyError] for an unknown
    name, as the [except KeyError] of line 217 expects; [request.args]
    maps an argument name to the list of its values. *)

Class SlaveStatus (S : Type) : Type := {
  setGraceful : bool -> S -> S;
  setPaused : bool -> S -> S;
  isPaused : S -> bool
}.

Class WebBase (Request S : Type) : Type := {
  (** [getAuthz(request).actionAllowed(action, request, slave)] *)
  actionAllowed : string -> Request -> S -> bool;
  path_to_slave : Request -> S -> string;
  path_to_authzfail : Request -> string
}.

Inductive page_exn : Type :=
  | KeyError
  | TypeError
  | ArgIndexError.

Inductive page_result (A : Type) : Type :=
  | Done (a : A)
  | Fail (e : page_exn).
Arguments Done {A} a.
Arguments Fail {A} e.

#[global] Instance page_result_bind : MBind page_result := fun _ _ f m =>
  match m with
  | Done a => f a
  | Fail e => Fail e
  end.

(** The resources that the [getChild] methods return. *)
Inductive resource (S : Type) : Type :=
  | ShutdownActionResource (slave : S)
  | PauseActionResource (slave : S) (state : bool)
  | RedirectResource (url : string)
  | OneBuildSlaveResource (slavename : string)
  | NoResource (message : string).
Arguments ShutdownActionResource {S} slave.
Arguments PauseActionResource {S} slave state.
Arguments RedirectResource {S} url.
Arguments OneBuildSlaveResource {S} slavename.
Arguments NoResource {S} message.

(** [ShutdownActionResource.performAction], lines 41-52: the slave object
    after the call and the URL that is returned. *)
Definition shutdown_performAction {Request S : Type} `{!SlaveStatus S}
    `{!WebBase Request S} (slave : S) (request : Request) : S * string :=
  let res := actionAllowed "gracefulShutdown" request slave in
  if res then
    let slave' := setGraceful true slave in
    (slave', path_to_slave request slave')
  else (slave, path_to_authzfail request).

(** [PauseActionResource.performAction], lines 63-74. *)
Definition pause_performAction {Request S : Type} `{!SlaveStatus S}
    `{!WebBase Request S} (slave : S) (state : bool) (request : Request)
    : S * string :=
  let res := actionAllowed "pauseSlave" request slave in
  if res then
    let slave' := setPaused state slave in
    (slave', path_to_slave request slave')
  else (slave, path_to_authzfail request).

(** [OneBuildSlaveResource.getChild], lines 89-96. *)
Definition one_slave_getChild {Request S : Type} `{!WebBase Request S}
    (slaves : gmap string S) (slavename path : string) (req : Request)
    : page_result (resource S) :=
  match slaves !! slavename with
  | None => Fail KeyError
  | Some slave =>
    if String.eqb path "shutdown" then Done (ShutdownActionResource slave)
    else if String.eqb path "pause" || String.eqb path "unpause" then
      Done (PauseActionResource slave (String.eqb path "pause"))
    else Done (RedirectResource (path_to_slave req slave))
  end.

(** [BuildSlavesResource.getChild], lines 213-218. *)
Definition slaves_getChild {S : Type} (html_escape : string -> string)
    (slaves : gmap string S) (path : string) : resource S :=
  match slaves !! path with
  | Some _ => OneBuildSlaveResource path
  | None => NoResource ("No such slave '" +:+ html_escape path +:+ "'")
  end.

(** A request for the child [path] of the page of [slavename]:
    [getChild], then [performAction] when the child is an action.  The
    slave object that the action changes is the one that the status holds
    under [slavename], so the change shows in [slaves]. *)
Definition request_child {Request S : Type} `{!SlaveStatus S}
    `{!WebBase Request S} (slaves : gmap string S) (slavename path : string)
    (request : Request) : page_result (gmap string S * string) :=
  child ← one_slave_getChild slaves slavename path request;
  match child with
  | ShutdownActionResource slave =>
    let '(slave', url) := shutdown_performAction slave request in
    Done (<[slavename := slave']> slaves, url)
  | PauseActionResource slave state =>
    let '(slave', url) := pause_performAction slave state request in
    Done (<[slavename := slave']> slaves, url)
  | RedirectResource url => Done (slaves, url)
  | OneBuildSlaveResource _ | NoResource _ => Done (slaves, ""%string)
  end.

(** Lines 116-119: [max_builds], with [int] giving [None] where Python
    raises [ValueError].  A missing argument makes [request.args.get]
    return [None], and [None[0]] raises [TypeError], which the [except]
    does not catch. *)
Definition max_builds_of (int : string -> option Z)
    (args : gmap string (list string)) : page_result Z :=
  match args !! "numbuilds"%string with
  | None => Fail TypeError
  | Some [] => Fail ArgIndexError
  | Some (v :: _) =>
    match int v with
    | Some n => Done n
    | None => Done 10
    end
  end.

(** Lines 121-128: the loop that collects [recent_builds]. *)
Fixpoint recent_loop {L : Type} (get_line_values : Build -> L)
    (slavename : string) (max_builds : Z) (rbs : list Build)
    (n : Z) (recent_builds : list L) : list L :=
  match rbs with
  | [] => recent_builds
  | rb :: rest =>
    if String.eqb (getSlavename rb) slavename then
      let n := n + 1 in
      let recent_builds := recent_builds ++ [get_line_values rb] in
      if n >? max_builds then recent_builds
      else recent_loop get_line_values slavename max_builds rest n recent_builds
    else recent_loop get_line_values slavename max_builds rest n recent_builds
  end.

(** The entries of [ctx] that [OneBuildSlaveResource.content] computes
    itself: [current], [recent] and the child that [pause_url] links. *)
Record slave_ctx (L : Type) : Type := {
  ctx_current : list L;
  ctx_recent : list L;
  ctx_pause_child : string
}.
Arguments ctx_current {L} _.
Arguments ctx_recent {L} _.
Arguments ctx_pause_child {L} _.

(** [OneBuildSlaveResource.content], lines 98-153. *)
Definition one_slave_content {S L : Type} `{!SlaveStatus S}
    (get_line_values : Build -> L) (int : string -> option Z)
    (slaves : gmap string S) (status : Status)
    (args : gmap string (list string)) (slavename : string)
    : page_result (slave_ctx L) :=
  match slaves !! slavename with
  | None => Fail KeyError
  | Some slave =>
    let builders := my_builders slavename status in
    let current_builds :=
      flat_map (fun b =>
        flat_map (fun cb =>
          if String.eqb (getSlavename cb) slavename
          then [get_line_values cb] else [])
          (getCurrentBuilds b)) builders in
    max_builds ← max_builds_of int args;
    let recent_builds :=
      recent_loop get_line_values slavename max_builds
        (generateFinishedBuilds status (map getName builders)) 0 [] in
    Done {| ctx_current := current_builds;
            ctx_recent := recent_builds;
            ctx_pause_child := if isPaused slave then "unpause" else "pause" |}
  end.

(** [BuildSlavesResource.content], lines 172-179: the dictionary
    [used_by_builder]. *)
Definition used_by_builder (status : Status) : gmap string (list string) :=
  foldl (fun used bname =>
    let b := getBuilder status bname in
    foldl (fun used slavename =>
      let used :=
        match used !! slavename with
        | None => <[slavename := []]> used
        | Some _ => used
        end in
      alter (fun bnames => bnames ++ [bname]) slavename used)
      used (getSlaves b))
    ∅ (getBuilderNames status).

(** Lines 191-194: [used_by_builder.get(name, [])]. *)
Definition builders_of (status : Status) (name : string) : list string :=
  default [] (used_by_builder status !! name).

(** The builder names among [bnames] that list the slave [name], once
    per listing, in the order of the two loops. *)
Definition listing (status : Status) (name : string) (bnames : list string)
    : list string :=
  flat_map (fun bname =>
    flat_map (fun bs => if String.eqb bs name then [bname] else [])
      (getSlaves (getBuilder status bname))) bnames.

(** A dictionary entry after the names [more] were appended to it. *)
Definition extend (entry : option (list string)) (more : list string)
    : option (list string) :=
  match more with
  | [] => entry
  | _ => Some (default [] entry ++ more)
  end.

(** A status provider with two builders and three slaves. *)
Definition sample_status : Status :=
  {| getBuilderNames := ["b1"; "b2"]%string;
     getBuilder := fun bname =>
       if String.eqb bname "b1"
       then {| getName := "b1"; getSlaves := ["slave1"; "slave2"]%string;
               getCurrentBuilds := [build_of "slave1" (sample_now - 700) sample_now] |}
       else {| getName := "b2"; getSlaves := ["slave2"; "slave3"]%string;
               getCurrentBuilds := [] |};
     generateFinishedBuilds := fun _ => sample_finished |}.

(** A slave object with the two flags, for the examples. *)
Record flags : Type := { graceful : bool; paused : bool }.

#[global] Instance flags_status : SlaveStatus flags := {|
  setGraceful g s := {| graceful := g; paused := paused s |};
  setPaused p s := {| graceful := graceful s; paused := p |};
  isPaused s := paused s
|}.

(** An authorisation that allows everything to a request [true] and
    nothing to a request [false]. *)
#[global] Instance sample_web : WebBase bool flags := {|
  actionAllowed _ request _ := request;
  path_to_slave _ _ := "buildslaves/slave1"%string;
  path_to_authzfail _ := "authzfail"%string
|}.

Definition sample_slaves : gmap string flags :=
  {[ "slave1"%string := {| graceful := false; paused := false |};
     "slave2"%string := {| graceful := false; paused := true |} ]}.

(** ** Measures used by the further properties *)

(** The sum of the entries of an accumulator. *)
Definition total (xs : list Z) : Z := foldr Z.add 0 xs.

(** The length of the part of the closed interval [[start, end_]] that
    lies in bucket [n]. *)
Definition overlap_length (bucket_size start end_ now : Z) (n : nat) : Z :=
  let bucket_start := now - (Z.of_nat n + 1) * bucket_size in
  let bucket_end := now - Z.of_nat n * bucket_size in
  Z.max 0 (Z.min end_ bucket_end - Z.max start bucket_start).

(** The branches of lines 242-249, which execute [buckets[n] += ...]. *)
Definition adds (o : overlap) : bool :=
  match o with
  | Disjoint | NoCase => false
  | BothIn | StartIn | EndIn | Spans => true
  end.

(** The window that the first [k] buckets cover together. *)
Definition window_overlap (bucket_size start end_ now : Z) (k : nat) : Z :=
  Z.max 0 (Z.min end_ now - Z.max start (now - Z.of_nat k * bucket_size)).

(** Accumulators for the examples. *)
Definition sample_totals : list Z := [10; 1; 86400; 90000; 0; -5; 172800; 3].
Definition sample_accumulator : list Z := [5; 6; 7; 8; 9; 10; 11].

(** Splits every comparison of the [if] chain into its two outcomes. *)
Ltac bucket_cases :=
  unfold contribution, classify, between;
  rewrite ?Z.gtb_ltb;
  repeat match goal with
  | |- context [?a <? ?b] => destruct (Z.ltb_spec a b)
  | |- context [?a <=? ?b] => destruct (Z.leb_spec a b)
  end; simpl; try reflexivity; try lia.

(** * Properties *)

(** ** The result monad and the loops *)

Lemma bind_Ok {A B : Type} (a : A) (f : A -> result B) : (Ok a ≫= f) = f a.
Proof. reflexivity. Qed.

Lemma for_each_app {A S : Type} (xs ys : list A) (body : S -> A -> result S) (s : S) :
  for_each (xs ++ ys) body s = (for_each xs body s ≫= for_each ys body).
Proof.
  revert s; induction xs as [|x xs IH]; intros s; simpl; [done|].
  destruct (body s x); simpl; [apply IH | done].
Qed.

(** A loop whose body is successful and keeps an invariant is successful
    and keeps it. *)
Lemma for_each_invariant {A S : Type} (P : S -> Prop) (Q : A -> Prop)
    (body : S -> A -> result S) (xs : list A) (s : S) :
  (forall s x, P s -> Q x -> exists s', body s x = Ok s' /\ P s') ->
  Forall Q xs -> P s ->
  exists s', for_each xs body s = Ok s' /\ P s'.
Proof.
  intros Hbody Hxs; revert s.
  induction Hxs as [|x xs Hx _ IH]; intros s Hs; simpl; [eauto|].
  destruct (Hbody s x Hs Hx) as (s1 & -> & Hs1); simpl; auto.
Qed.

(** ** One iteration *)

Section OneInterval.
Variables bucket_size start end_ now : Z.

Lemma bucket_step_classify (buckets : list Z) (n : nat) :
  bucket_step bucket_size start end_ now buckets n =
    match classify bucket_size start end_ now n with
    | Disjoint | NoCase => Ok buckets
    | _ => iadd buckets n (contribution bucket_size start end_ now n)
    end.
Proof.
  unfold bucket_step, contribution, classify.
  repeat (case_match; try done).
Qed.

Lemma bucket_step_in_range (buckets : list Z) (n : nat) (x : Z) :
  buckets !! n = Some x ->
  bucket_step bucket_size start end_ now buckets n =
    Ok (<[n := x + contribution bucket_size start end_ now n]> buckets).
Proof.
  intros Hx. rewrite bucket_step_classify. unfold iadd. rewrite Hx.
  assert (Hid : forall c, c = 0 -> Ok buckets = Ok (<[n := x + c]> buckets)).
  { intros c ->. by rewrite Z.add_0_r, list_insert_id. }
  unfold contribution.
  destruct (classify bucket_size start end_ now n); auto.
Qed.
End OneInterval.

(** ** The whole loop of [add_to_buckets] *)

Lemma bump_lookup (k : nat) (c : nat -> Z) (buckets : list Z) (i : nat) :
  bump k c buckets !! i =
    (fun x => if bool_decide (i < k)%nat then x + c i else x) <$> buckets !! i.
Proof. unfold bump. by rewrite list_lookup_imap. Qed.

Lemma bump_length (k : nat) (c : nat -> Z) (buckets : list Z) :
  length (bump k c buckets) = length buckets.
Proof. unfold bump. by rewrite length_imap. Qed.

Lemma bump_0 (c : nat -> Z) (buckets : list Z) : bump 0 c buckets = buckets.
Proof.
  apply list_eq; intros i. rewrite bump_lookup.
  rewrite bool_decide_eq_false_2 by lia. by destruct (buckets !! i).
Qed.

Lemma bump_S (k : nat) (c : nat -> Z) (buckets : list Z) (x : Z) :
  buckets !! k = Some x ->
  <[k := x + c k]> (bump k c buckets) = bump (S k) c buckets.
Proof.
  intros Hx. apply list_eq; intros i. rewrite bump_lookup.
  destruct (decide (i = k)) as [->|Hne].
  - rewrite list_lookup_insert_eq
      by (rewrite bump_length; by apply lookup_lt_Some with x).
    rewrite Hx; simpl. by rewrite bool_decide_eq_true_2 by lia.
  - rewrite list_lookup_insert_ne by done. rewrite bump_lookup.
    destruct (buckets !! i); simpl; [|done].
    by rewrite (bool_decide_ext (i < k)%nat (i < S k)%nat) by lia.
Qed.

Lemma bump_zero (k : nat) (c : nat -> Z) (buckets : list Z) :
  (forall i, (i < k)%nat -> c i = 0) -> bump k c buckets = buckets.
Proof.
  intros Hc. apply list_eq; intros i. rewrite bump_lookup.
  destruct (buckets !! i); simpl; [|done].
  case_bool_decide; [by rewrite Hc, Z.add_0_r|done].
Qed.

Section WholeLoop.
Variables bucket_size start end_ now : Z.

Lemma steps_bump (k : nat) (buckets : list Z) :
  (k <= length buckets)%nat ->
  for_each (seq 0 k) (bucket_step bucket_size start end_ now) buckets =
    Ok (bump k (contribution bucket_size start end_ now) buckets).
Proof.
  induction k as [|k IH]; intros Hk.
  - simpl. by rewrite bump_0.
  - rewrite seq_S, for_each_app, IH by lia. rewrite bind_Ok. simpl.
    destruct (lookup_lt_is_Some_2 buckets k) as [x Hx]; [lia|].
    rewrite (bucket_step_in_range _ _ _ _ _ _ x).
    + rewrite bind_Ok. by rewrite (bump_S _ _ _ _ Hx).
    + rewrite bump_lookup, Hx; simpl.
      by rewrite bool_decide_eq_false_2 by lia.
Qed.

(** With an accumulator of at least [num_buckets] entries the call raises
    nothing and adds [contribution] to each of the entries below
    [num_buckets]. *)
Lemma add_to_buckets_bump (num_buckets : Z) (buckets : list Z) :
  (Z.to_nat num_buckets <= length buckets)%nat ->
  add_to_buckets num_buckets buckets bucket_size start end_ now =
    Ok (bump (Z.to_nat num_buckets)
          (contribution bucket_size start end_ now) buckets).
Proof. apply steps_bump. Qed.
End WholeLoop.

(** ** Arithmetic of the classification *)

Lemma contribution_nonneg (bucket_size start end_ now : Z) (n : nat) :
  start <= end_ -> 0 <= contribution bucket_size start end_ now n.
Proof. intros Hwf. bucket_cases. Qed.

Lemma contribution_degenerate (bucket_size t now : Z) (n : nat) :
  contribution bucket_size t t now n = 0.
Proof. bucket_cases. Qed.

Lemma bucket_start_reach (num_buckets bucket_size now : Z) (n : nat) :
  0 <= bucket_size -> (n < Z.to_nat num_buckets)%nat ->
  now - num_buckets * bucket_size <= now - (Z.of_nat n + 1) * bucket_size.
Proof.
  intros Hsize Hn.
  assert ((Z.of_nat n + 1) * bucket_size <= num_buckets * bucket_size); [|lia].
  apply Z.mul_le_mono_nonneg_r; lia.
Qed.

(** A build that ended before [bucket_reach] meets no bucket. *)
Lemma classify_beyond_reach (num_buckets bucket_size start end_ now : Z) (n : nat) :
  0 <= bucket_size -> (n < Z.to_nat num_buckets)%nat ->
  end_ < now - num_buckets * bucket_size ->
  classify bucket_size start end_ now n = Disjoint.
Proof.
  intros Hsize Hn Hend.
  pose proof (bucket_start_reach num_buckets bucket_size now n Hsize Hn).
  unfold classify.
  destruct (Z.ltb_spec end_ (now - (Z.of_nat n + 1) * bucket_size)); [done|lia].
Qed.

(** An interval that covers a bucket and more on both sides takes the
    branch of line 248. *)
Lemma classify_spans (bucket_size start end_ now : Z) (n : nat) :
  0 <= bucket_size ->
  start < now - (Z.of_nat n + 1) * bucket_size ->
  now - Z.of_nat n * bucket_size < end_ ->
  classify bucket_size start end_ now n = Spans.
Proof. intros Hsize Hs He. bucket_cases. Qed.

(** The contributions of the interval that is bucket [n]. *)
Lemma contribution_bucket_span (bucket_size now : Z) (n k : nat) :
  0 < bucket_size ->
  contribution bucket_size (now - (Z.of_nat n + 1) * bucket_size)
    (now - Z.of_nat n * bucket_size) now k =
  if decide (k = n) then bucket_size else 0.
Proof.
  intros Hsize. case_decide as Hk.
  - subst k. bucket_cases.
  - assert (Z.of_nat k + 1 <= Z.of_nat n \/ Z.of_nat n + 1 <= Z.of_nat k)
      as [Hlt|Hgt] by lia.
    + assert ((Z.of_nat k + 1) * bucket_size <= Z.of_nat n * bucket_size)
        by (apply Z.mul_le_mono_nonneg_r; lia).
      bucket_cases.
    + assert ((Z.of_nat n + 1) * bucket_size <= Z.of_nat k * bucket_size)
        by (apply Z.mul_le_mono_nonneg_r; lia).
      bucket_cases.
Qed.

(** ** The loops over builds *)

Section Sweep.
Variables (name : string) (num_buckets bucket_size now : Z).

Lemma add_builds_cons (cb : Build) (builds : list Build) (buckets : list Z) :
  add_builds name num_buckets bucket_size now (cb :: builds) buckets =
    ((if of_slave name cb then
        add_to_buckets num_buckets buckets bucket_size
          (getTimes cb).1 (getTimes cb).2 now
      else Ok buckets)
       ≫= add_builds name num_buckets bucket_size now builds).
Proof.
  unfold add_builds, of_slave; simpl. by destruct cb as [sn [s e]].
Qed.

Lemma add_builds_app (l1 l2 : list Build) (buckets : list Z) :
  add_builds name num_buckets bucket_size now (l1 ++ l2) buckets =
    (add_builds name num_buckets bucket_size now l1 buckets
       ≫= add_builds name num_buckets bucket_size now l2).
Proof. apply for_each_app. Qed.

Lemma finished_loop_cons (bucket_reach : Z) (rb : Build) (rest : list Build)
    (buckets : list Z) :
  finished_loop name num_buckets bucket_size now bucket_reach (rb :: rest) buckets =
    if of_slave name rb then
      if (getTimes rb).2 <? bucket_reach then Ok buckets
      else add_to_buckets num_buckets buckets bucket_size
             (getTimes rb).1 (getTimes rb).2 now
             ≫= finished_loop name num_buckets bucket_size now bucket_reach rest
    else finished_loop name num_buckets bucket_size now bucket_reach rest buckets.
Proof. unfold of_slave; simpl. by destruct rb as [sn [s e]]. Qed.

(** Iterations that take no adding branch leave the accumulator alone,
    whatever its length. *)
Lemma steps_skip (start end_ : Z) (ns : list nat) (buckets : list Z) :
  Forall (fun n => classify bucket_size start end_ now n = Disjoint) ns ->
  for_each ns (bucket_step bucket_size start end_ now) buckets = Ok buckets.
Proof.
  induction 1 as [|n ns Hn _ IH]; simpl; [done|].
  by rewrite bucket_step_classify, Hn, bind_Ok.
Qed.

Lemma add_to_buckets_beyond_reach (start end_ : Z) (buckets : list Z) :
  0 <= bucket_size -> end_ < now - num_buckets * bucket_size ->
  add_to_buckets num_buckets buckets bucket_size start end_ now = Ok buckets.
Proof.
  intros Hsize Hend. apply steps_skip, Forall_forall. intros n Hn.
  apply (classify_beyond_reach num_buckets); [done| |done].
  unfold range in Hn. apply elem_of_seq in Hn. lia.
Qed.

(** Builds of the slave that all ended before [bucket_reach] add nothing. *)
Lemma add_builds_beyond_reach (builds : list Build) (buckets : list Z) :
  0 <= bucket_size ->
  Forall (fun rb => (getTimes rb).2 < now - num_buckets * bucket_size)
    (List.filter (of_slave name) builds) ->
  add_builds name num_buckets bucket_size now builds buckets = Ok buckets.
Proof.
  intros Hsize. induction builds as [|rb rest IH]; simpl; [done|].
  rewrite add_builds_cons. destruct (of_slave name rb); intros Hall.
  - inversion Hall as [|? ? Hrb Hrest]; subst.
    rewrite add_to_buckets_beyond_reach, bind_Ok by done. auto.
  - rewrite bind_Ok. auto.
Qed.

Lemma ends_descending_trans : Relations_1.Transitive ends_descending.
Proof. intros x y z. unfold ends_descending. lia. Qed.

(** The sweep with [break] computes what the sweep over every build
    computes, when the builds of the slave come latest end first. *)
Lemma finished_loop_add_builds (rbs : list Build) (buckets : list Z) :
  0 <= bucket_size ->
  StronglySorted ends_descending (List.filter (of_slave name) rbs) ->
  finished_loop name num_buckets bucket_size now
    (now - num_buckets * bucket_size) rbs buckets =
  add_builds name num_buckets bucket_size now rbs buckets.
Proof.
  intros Hsize. revert buckets.
  induction rbs as [|rb rest IH]; intros buckets Hsorted; [done|].
  rewrite finished_loop_cons, add_builds_cons. simpl in Hsorted.
  destruct (of_slave name rb); [|rewrite bind_Ok; auto].
  apply StronglySorted_inv in Hsorted as [Hrest Hrb].
  destruct (Z.ltb_spec (getTimes rb).2 (now - num_buckets * bucket_size))
    as [Hold|Hnew].
  - rewrite add_to_buckets_beyond_reach, bind_Ok by done.
    symmetry. apply add_builds_beyond_reach; [done|].
    eapply Forall_impl; [exact Hrb|].
    intros rb'; unfold ends_descending; simpl. lia.
  - destruct (add_to_buckets _ _ _ _ _ _); simpl; auto.
Qed.
End Sweep.

(** ** Invariants of the accumulator *)

Lemma bump_nonneg (k : nat) (c : nat -> Z) (buckets : list Z) :
  (forall i, 0 <= c i) -> Forall (Z.le 0) buckets -> Forall (Z.le 0) (bump k c buckets).
Proof.
  intros Hc Hb. apply Forall_lookup. intros i y. rewrite bump_lookup.
  destruct (buckets !! i) as [x|] eqn:Hx; simpl; [|done].
  pose proof (proj1 (Forall_lookup _ _) Hb i x Hx). pose proof (Hc i).
  intros [= <-]. case_bool_decide; lia.
Qed.

Lemma bump_mono (k : nat) (c : nat -> Z) (xs ys : list Z) :
  Forall2 Z.le xs ys -> Forall2 Z.le (bump k c xs) (bump k c ys).
Proof.
  intros Hle. apply Forall2_same_length_lookup. split.
  - rewrite !bump_length. by eapply Forall2_length.
  - intros i x y. rewrite !bump_lookup.
    destruct (xs !! i) as [x0|] eqn:Hx, (ys !! i) as [y0|] eqn:Hy; simpl; try done.
    pose proof (proj2 (proj1 (Forall2_same_length_lookup _ _ _) Hle) i x0 y0 Hx Hy).
    intros [= <-] [= <-]. case_bool_decide; lia.
Qed.

Lemma bump_increases (k : nat) (c : nat -> Z) (buckets : list Z) :
  (forall i, 0 <= c i) -> Forall2 Z.le buckets (bump k c buckets).
Proof.
  intros Hc. apply Forall2_same_length_lookup. split.
  - by rewrite bump_length.
  - intros i x y Hx. rewrite bump_lookup, Hx; simpl.
    pose proof (Hc i). intros [= <-]. case_bool_decide; lia.
Qed.

Lemma le_buckets_refl (xs : list Z) : Forall2 Z.le xs xs.
Proof. induction xs; constructor; [lia|done]. Qed.

Section Invariants.
Variables (name : string) (num_buckets bucket_size now : Z).

Lemma add_builds_keeps (P : list Z -> Prop) (Q : Build -> Prop)
    (builds : list Build) (buckets : list Z) :
  kept_by_add num_buckets bucket_size now P Q -> Forall Q builds -> P buckets ->
  exists t, add_builds name num_buckets bucket_size now builds buckets = Ok t /\ P t.
Proof.
  intros Hadd. unfold add_builds.
  apply (for_each_invariant P Q). intros b [sn [s e]] Hb Hcb; simpl.
  destruct (String.eqb sn name); [|eauto].
  apply (Hadd b {| getSlavename := sn; getTimes := (s, e) |}); done.
Qed.

Lemma current_loop_keeps (P : list Z -> Prop) (Q : Build -> Prop)
    (builders : list Builder) (buckets : list Z) :
  kept_by_add num_buckets bucket_size now P Q ->
  Forall (fun b => Forall Q (getCurrentBuilds b)) builders -> P buckets ->
  exists t, current_loop name num_buckets bucket_size now builders buckets = Ok t
            /\ P t.
Proof.
  intros Hadd. unfold current_loop.
  apply (for_each_invariant P (fun b => Forall Q (getCurrentBuilds b))).
  intros b bd Hb Hbd. by apply (add_builds_keeps P Q).
Qed.

Lemma finished_loop_keeps (P : list Z -> Prop) (Q : Build -> Prop)
    (bucket_reach : Z) (rbs : list Build) (buckets : list Z) :
  kept_by_add num_buckets bucket_size now P Q -> Forall Q rbs -> P buckets ->
  exists t, finished_loop name num_buckets bucket_size now bucket_reach rbs buckets
              = Ok t /\ P t.
Proof.
  intros Hadd Hrbs; revert buckets.
  induction Hrbs as [|rb rest Hrb _ IH]; intros buckets Hb; [by exists buckets|].
  rewrite finished_loop_cons.
  destruct (of_slave name rb); [|auto].
  destruct (_ <? _); [by exists buckets|].
  destruct (Hadd buckets rb Hb Hrb) as (t & -> & Ht). rewrite bind_Ok. auto.
Qed.

(** The accumulator keeps its length. *)
Lemma kept_length (k : nat) :
  (Z.to_nat num_buckets <= k)%nat ->
  kept_by_add num_buckets bucket_size now (fun b => length b = k) (fun _ => True).
Proof.
  intros Hk b cb Hb _. rewrite add_to_buckets_bump by lia.
  eexists; split; [done|]. by rewrite bump_length.
Qed.

(** Well-formed builds keep the accumulator non-negative. *)
Lemma kept_nonneg (k : nat) :
  (Z.to_nat num_buckets <= k)%nat ->
  kept_by_add num_buckets bucket_size now
    (fun b => length b = k /\ Forall (Z.le 0) b) well_formed.
Proof.
  intros Hk b cb [Hb Hpos] Hwf. rewrite add_to_buckets_bump by lia.
  eexists; split; [done|]. split; [by rewrite bump_length|].
  apply bump_nonneg; [|done]. intros i. by apply contribution_nonneg.
Qed.

(** Adding the same builds to a larger accumulator gives a larger one. *)
Lemma add_builds_mono (builds : list Build) (xs ys : list Z) :
  (Z.to_nat num_buckets <= length xs)%nat -> Forall2 Z.le xs ys ->
  exists t t',
    add_builds name num_buckets bucket_size now builds xs = Ok t /\
    add_builds name num_buckets bucket_size now builds ys = Ok t' /\
    Forall2 Z.le t t'.
Proof.
  revert xs ys. induction builds as [|cb rest IH]; intros xs ys Hlen Hle.
  - by exists xs, ys.
  - rewrite !add_builds_cons. destruct (of_slave name cb).
    + pose proof (Forall2_length _ _ _ Hle) as Hlen'.
      rewrite !add_to_buckets_bump, !bind_Ok by lia.
      apply IH; [by rewrite bump_length|by apply bump_mono].
    + rewrite !bind_Ok. by apply IH.
Qed.
End Invariants.

(** ** The normalisation loop *)

Lemma scaled_lookup (k : nat) (d : Z) (buckets : list Z) (i : nat) :
  scaled k d buckets !! i =
    (fun x => if bool_decide (i < k)%nat then x / d else x) <$> buckets !! i.
Proof. unfold scaled. by rewrite list_lookup_imap. Qed.

Lemma scaled_length (k : nat) (d : Z) (buckets : list Z) :
  length (scaled k d buckets) = length buckets.
Proof. unfold scaled. by rewrite length_imap. Qed.

Lemma divisions_scaled (k : nat) (d : Z) (buckets : list Z) :
  d <> 0 -> (k <= length buckets)%nat ->
  for_each (seq 0 k) (fun buckets n => idiv buckets n d) buckets =
    Ok (scaled k d buckets).
Proof.
  intros Hd. induction k as [|k IH]; intros Hk.
  - simpl. f_equal. apply list_eq; intros i. rewrite scaled_lookup.
    rewrite bool_decide_eq_false_2 by lia. by destruct (buckets !! i).
  - rewrite seq_S, for_each_app, IH by lia. rewrite bind_Ok. simpl.
    destruct (lookup_lt_is_Some_2 buckets k) as [x Hx]; [lia|].
    unfold idiv. rewrite scaled_lookup, Hx; simpl.
    rewrite bool_decide_eq_false_2 by lia.
    destruct (Z.eqb_spec d 0); [done|]. rewrite bind_Ok. f_equal.
    apply list_eq; intros i. rewrite scaled_lookup.
    destruct (decide (i = k)) as [->|Hne].
    + rewrite list_lookup_insert_eq
        by (rewrite scaled_length; by apply lookup_lt_Some with x).
      rewrite Hx; simpl. by rewrite bool_decide_eq_true_2 by lia.
    + rewrite list_lookup_insert_ne by done. rewrite scaled_lookup.
      destruct (buckets !! i); simpl; [|done].
      by rewrite (bool_decide_ext (i < k)%nat (i < S k)%nat) by lia.
Qed.

Lemma normalize_scaled (num_buckets bucket_size : Z) (buckets : list Z) :
  bucket_size <> 0 -> (Z.to_nat num_buckets <= length buckets)%nat ->
  normalize num_buckets bucket_size buckets =
    Ok (scaled (Z.to_nat num_buckets) bucket_size buckets).
Proof. apply divisions_scaled. Qed.

(** ** The body of [determine_duty_cycle] *)

(** Whatever the builds are, the two loops raise nothing and leave
    [num_buckets] totals. *)
Lemma duty_cycle_totals_length (num_buckets bucket_size now : Z)
    (name : string) (status : Status) :
  exists t, duty_cycle_totals num_buckets bucket_size now name status = Ok t
            /\ length t = Z.to_nat num_buckets.
Proof.
  unfold duty_cycle_totals.
  pose proof (kept_length num_buckets bucket_size now (Z.to_nat num_buckets)
                (le_n _)) as Hkept.
  destruct (current_loop_keeps name num_buckets bucket_size now _ _
              (my_builders name status) (replicate (Z.to_nat num_buckets) 0) Hkept)
    as (t1 & -> & Ht1).
  - apply Forall_forall; intros b _. by apply Forall_forall.
  - by rewrite length_replicate.
  - rewrite bind_Ok. apply (finished_loop_keeps _ _ _ _ _ _ _ _ _ Hkept); [|done].
    by apply Forall_forall.
Qed.

(** The call raises nothing, and its value is the list of the seven
    totals after the division. *)
Lemma determine_duty_cycle_value {Slave : Type} (now : Z) (name : string)
    (status : Status) (slave : Slave) :
  exists totals,
    duty_cycle_totals 7 86400 now name status = Ok totals /\
    length totals = 7%nat /\
    determine_duty_cycle now name status slave
      = Ok (PyList (scaled 7 86400 totals)).
Proof.
  unfold determine_duty_cycle, duty_cycle_buckets.
  change (60 * 60 * 24) with 86400.
  destruct (duty_cycle_totals_length 7 86400 now name status)
    as (t & Ht & Hlen).
  exists t. rewrite Ht. split; [done|]. split; [done|].
  rewrite bind_Ok, normalize_scaled by (done || (rewrite Hlen; simpl; lia)).
  reflexivity.
Qed.

(** * Properties of the specification *)

(** ** Confirmed behaviour *)

(** C3. Early termination is an optimisation only: when the finished
    builds of the slave arrive in non-increasing order of their end and the
    bucket size is not negative, the sweep of lines 277-282, which stops at
    the first build that ended before [bucket_reach = now - count * size],
    leaves exactly the accumulator that the sweep over all the builds
    leaves (the same totals, or the same exception). *)
Theorem C3_early_termination_is_full_sweep
    (name : string) (num_buckets bucket_size now : Z)
    (rbs : list Build) (buckets : list Z) :
  0 <= bucket_size ->
  Sorted ends_descending (List.filter (of_slave name) rbs) ->
  finished_loop name num_buckets bucket_size now
    (now - num_buckets * bucket_size) rbs buckets =
  add_builds name num_buckets bucket_size now rbs buckets.
Proof.
  intros Hsize Hsorted. apply finished_loop_add_builds; [done|].
  apply Sorted_StronglySorted; [apply ends_descending_trans|done].
Qed.

Lemma C3_early_termination_witness :
  0 <= 86400 /\
  Sorted ends_descending (List.filter (of_slave "slave1") sample_finished) /\
  finished_loop "slave1" 7 86400 sample_now (sample_now - 7 * 86400)
    sample_finished (zeros 7) = Ok [50; 72800; 27200; 0; 0; 0; 0] /\
  add_builds "slave1" 7 86400 sample_now sample_finished (zeros 7) =
    Ok [50; 72800; 27200; 0; 0; 0; 0].
Proof.
  assert (Hsorted :
    Sorted ends_descending (List.filter (of_slave "slave1") sample_finished)).
  { simpl. repeat constructor; unfold ends_descending; simpl; lia. }
  split; [lia|]. split; [exact Hsorted|].
  rewrite <- (C3_early_termination_is_full_sweep "slave1" 7 86400 sample_now
                sample_finished (zeros 7)); [|lia|exact Hsorted].
  split; reflexivity.
Defined.

(** C7. A single interval that is exactly the span
    [[now - (n+1)*size, now - n*size)] of bucket [n] makes the total of
    bucket [n] equal to [size] and leaves every other total at zero. *)
Theorem C7_interval_equal_to_bucket
    (num_buckets bucket_size now : Z) (n : nat) :
  0 < bucket_size -> Z.of_nat n < num_buckets ->
  add_to_buckets num_buckets (zeros num_buckets) bucket_size
    (now - (Z.of_nat n + 1) * bucket_size) (now - Z.of_nat n * bucket_size) now =
  Ok (<[n := bucket_size]> (zeros num_buckets)).
Proof.
  intros Hsize Hn. unfold zeros.
  rewrite add_to_buckets_bump by (by rewrite length_replicate).
  f_equal. apply list_eq; intros i. rewrite bump_lookup.
  destruct (decide (i < Z.to_nat num_buckets)%nat) as [Hi|Hi].
  - rewrite lookup_replicate_2 by done. simpl.
    rewrite bool_decide_eq_true_2, contribution_bucket_span by done.
    case_decide as Hin.
    + subst i. by rewrite list_lookup_insert_eq by (rewrite length_replicate; lia).
    + rewrite list_lookup_insert_ne by done. by rewrite lookup_replicate_2.
  - rewrite list_lookup_insert_ne by lia.
    by rewrite (proj1 (lookup_replicate_None _ _ _)) by lia.
Qed.

Lemma C7_interval_equal_to_bucket_witness :
  0 < 86400 /\ Z.of_nat 2 < 7 /\
  add_to_buckets 7 (zeros 7) 86400
    (sample_now - (Z.of_nat 2 + 1) * 86400) (sample_now - Z.of_nat 2 * 86400)
    sample_now = Ok [0; 0; 86400; 0; 0; 0; 0].
Proof.
  split; [lia|]. split; [simpl; lia|].
  rewrite (C7_interval_equal_to_bucket 7 86400 sample_now 2); [reflexivity|lia|simpl; lia].
Defined.

(** C8. An interval with [start = end], wherever it lies, changes no
    total and raises nothing: the call of [add_to_buckets] returns the
    accumulator as it was, and a list of builds gives the same totals with
    and without such a build. *)
Theorem C8_degenerate_interval_adds_nothing
    (name slavename : string) (num_buckets bucket_size now t : Z)
    (l1 l2 : list Build) (buckets : list Z) :
  (Z.to_nat num_buckets <= length buckets)%nat ->
  add_to_buckets num_buckets buckets bucket_size t t now = Ok buckets /\
  add_builds name num_buckets bucket_size now
    (l1 ++ build_of slavename t t :: l2) buckets =
  add_builds name num_buckets bucket_size now (l1 ++ l2) buckets.
Proof.
  intros Hlen.
  assert (Hone : forall b : list Z, length b = length buckets ->
            add_to_buckets num_buckets b bucket_size t t now = Ok b).
  { intros b Hb. rewrite add_to_buckets_bump by lia. f_equal.
    apply bump_zero. intros i _. apply contribution_degenerate. }
  split; [by apply Hone|].
  rewrite !add_builds_app.
  destruct (add_builds_keeps name num_buckets bucket_size now
              (fun b => length b = length buckets) (fun _ => True) l1 buckets)
    as (t1 & -> & Ht1);
    [by apply kept_length|by apply Forall_forall|done|].
  rewrite !bind_Ok, add_builds_cons. simpl.
  rewrite Hone by done. by destruct (of_slave _ _).
Qed.

Lemma C8_degenerate_interval_witness :
  (Z.to_nat 7 <= length (zeros 7))%nat /\
  add_to_buckets 7 (zeros 7) 86400 (sample_now - 5000) (sample_now - 5000)
    sample_now = Ok (zeros 7) /\
  add_builds "slave1" 7 86400 sample_now
    (sample_finished ++ build_of "slave1" (sample_now - 5000) (sample_now - 5000)
       :: sample_finished) (zeros 7) =
  add_builds "slave1" 7 86400 sample_now (sample_finished ++ sample_finished)
    (zeros 7).
Proof.
  split; [simpl; lia|].
  apply (C8_degenerate_interval_adds_nothing "slave1" "slave1" 7 86400 sample_now
           (sample_now - 5000) sample_finished sample_finished (zeros 7)).
  simpl; lia.
Defined.

(** C10. Monotonicity: adding one well-formed build ([start <= end]) to a
    list of builds, at any place, gives totals that are entry by entry at
    least the totals without it; neither computation raises. *)
Theorem C10_totals_monotone
    (name : string) (num_buckets bucket_size now : Z)
    (l1 l2 : list Build) (cb : Build) (buckets : list Z) :
  (Z.to_nat num_buckets <= length buckets)%nat ->
  well_formed cb ->
  exists t t',
    add_builds name num_buckets bucket_size now (l1 ++ l2) buckets = Ok t /\
    add_builds name num_buckets bucket_size now (l1 ++ cb :: l2) buckets = Ok t' /\
    Forall2 Z.le t t'.
Proof.
  intros Hlen Hwf. rewrite !add_builds_app.
  destruct (add_builds_keeps name num_buckets bucket_size now
              (fun b => length b = length buckets) (fun _ => True) l1 buckets)
    as (t1 & -> & Ht1);
    [by apply kept_length|by apply Forall_forall|done|].
  rewrite !bind_Ok, add_builds_cons.
  destruct (of_slave name cb).
  - rewrite add_to_buckets_bump, bind_Ok by lia.
    apply add_builds_mono; [lia|].
    apply bump_increases. intros i. by apply contribution_nonneg.
  - rewrite bind_Ok. apply add_builds_mono; [lia|apply le_buckets_refl].
Qed.

Lemma C10_totals_monotone_witness :
  (Z.to_nat 7 <= length (zeros 7))%nat /\
  well_formed (build_of "slave1" (sample_now - 90000) (sample_now - 3600)) /\
  exists t t',
    add_builds "slave1" 7 86400 sample_now
      ([build_of "slave1" (sample_now - 100) (sample_now - 50)] ++ []) (zeros 7)
      = Ok t /\
    add_builds "slave1" 7 86400 sample_now
      ([build_of "slave1" (sample_now - 100) (sample_now - 50)] ++
       build_of "slave1" (sample_now - 90000) (sample_now - 3600) :: [])
      (zeros 7) = Ok t' /\
    Forall2 Z.le t t'.
Proof.
  split; [simpl; lia|]. split; [unfold well_formed; simpl; lia|].
  apply C10_totals_monotone; [simpl; lia|unfold well_formed; simpl; lia].
Defined.

(** ** Departures of the code from the specification *)

(** C1. The branch of line 248 adds the constant [1], not the bucket
    size: for an interval that covers bucket [n] and more on both sides,
    entry [n] grows by exactly one; and one interval that covers all seven
    day-long buckets leaves a total of 1 in each of them, not 86400. *)
Theorem C1_spanning_interval_adds_one :
  (forall (num_buckets bucket_size start end_ now x : Z) (n : nat)
          (buckets : list Z),
      0 <= bucket_size ->
      start < now - (Z.of_nat n + 1) * bucket_size ->
      now - Z.of_nat n * bucket_size < end_ ->
      (n < Z.to_nat num_buckets <= length buckets)%nat ->
      buckets !! n = Some x ->
      exists t, add_to_buckets num_buckets buckets bucket_size start end_ now = Ok t
                /\ t !! n = Some (x + 1)) /\
  add_to_buckets 7 (zeros 7) 86400 (sample_now - 8 * 86400) (sample_now + 1)
    sample_now = Ok [1; 1; 1; 1; 1; 1; 1].
Proof.
  split; [|reflexivity].
  intros num_buckets bucket_size start end_ now x n buckets Hsize Hs He Hn Hx.
  rewrite add_to_buckets_bump by lia. eexists; split; [done|].
  rewrite bump_lookup, Hx; simpl. rewrite bool_decide_eq_true_2 by lia.
  unfold contribution. by rewrite classify_spans.
Qed.

Lemma C1_spanning_interval_witness :
  exists t, add_to_buckets 7 (zeros 7) 86400 (sample_now - 3 * 86400 - 10)
              (sample_now - 86400) sample_now = Ok t
            /\ t !! 2%nat = Some (0 + 1).
Proof.
  apply (proj1 C1_spanning_interval_adds_one 7 86400 _ _ sample_now 0 2%nat (zeros 7));
    [lia|unfold sample_now; simpl; lia|unfold sample_now; simpl; lia
    |simpl; lia|reflexivity].
Defined.

(** C2. Additivity at a split point fails: the interval of 86420 seconds
    that covers bucket 1 and ten seconds on each side gives bucket 1 the
    total 1, while its two halves, split in the middle of bucket 1, give
    43200 each, 86400 together. *)
Theorem C2_split_is_not_additive :
  let a := sample_now - 2 * 86400 - 10 in
  let m := sample_now - 86400 - 43200 in
  let b := sample_now - 86400 + 10 in
  a <= m <= b /\
  add_to_buckets 7 (zeros 7) 86400 a b sample_now = Ok [10; 1; 10; 0; 0; 0; 0] /\
  add_to_buckets 7 (zeros 7) 86400 a m sample_now = Ok [0; 43200; 10; 0; 0; 0; 0] /\
  add_to_buckets 7 (zeros 7) 86400 m b sample_now = Ok [10; 43200; 0; 0; 0; 0; 0] /\
  sum_buckets [0; 43200; 10; 0; 0; 0; 0] [10; 43200; 0; 0; 0; 0; 0]
    = [10; 86400; 10; 0; 0; 0; 0].
Proof. cbv zeta. split; [unfold sample_now; lia|]. repeat split; reflexivity. Qed.


(** C5. The fall-through is reachable with a well-formed interval: a
    build that began before bucket 1 and ended exactly at its end is not
    excluded by the test of line 239 and takes none of the four branches,
    so bucket 1, which it covers entirely, keeps the total 0. *)
Theorem C5_fall_through_is_reachable :
  let start := sample_now - 2 * 86400 - 10 in
  let end_ := sample_now - 86400 in
  let bucket_start := sample_now - (1 + 1) * 86400 in
  let bucket_end := sample_now - 1 * 86400 in
  start <= end_ /\
  (end_ <? bucket_start) || (start >? bucket_end) = false /\
  classify 86400 start end_ sample_now 1 = NoCase /\
  add_to_buckets 7 (zeros 7) 86400 start end_ sample_now
    = Ok [0; 0; 10; 0; 0; 0; 0].
Proof. cbv zeta. split; [unfold sample_now; lia|]. repeat split; reflexivity. Qed.

(** ** Properties that hold in an amended form *)

(** C6, as stated, fails: an interval with [start > end] inside bucket 0
    takes the branch of line 242 and adds the negative [end - start]. *)
Lemma C6_malformed_interval_negative_total :
  duty_cycle_totals 7 86400 sample_now "slave1"
    (status_of "slave1" []
       [build_of "slave1" (sample_now - 10) (sample_now - 20)])
    = Ok [-10; 0; 0; 0; 0; 0; 0] /\
  ~ Forall (Z.le 0) [-10; 0; 0; 0; 0; 0; 0].
Proof.
  split; [reflexivity|].
  intros Hall. apply Forall_inv in Hall. lia.
Qed.

(** C6, amended. When every current and every finished build handed to
    the aggregation is well formed ([start <= end]), the aggregation raises
    nothing and each of its [num_buckets] totals is non-negative, for
    every configuration. *)
Theorem C6_totals_nonneg_for_well_formed
    (num_buckets bucket_size now : Z) (name : string) (status : Status) :
  Forall (fun b => Forall well_formed (getCurrentBuilds b))
    (my_builders name status) ->
  Forall well_formed
    (generateFinishedBuilds status (map getName (my_builders name status))) ->
  exists t, duty_cycle_totals num_buckets bucket_size now name status = Ok t /\
            length t = Z.to_nat num_buckets /\ Forall (Z.le 0) t.
Proof.
  intros Hcur Hfin. unfold duty_cycle_totals.
  pose proof (kept_nonneg num_buckets bucket_size now (Z.to_nat num_buckets)
                (le_n _)) as Hkept.
  destruct (current_loop_keeps name num_buckets bucket_size now _ _
              (my_builders name status) (replicate (Z.to_nat num_buckets) 0)
              Hkept Hcur)
    as (t1 & -> & Ht1).
  - split; [by rewrite length_replicate|]. by apply Forall_replicate.
  - rewrite bind_Ok. by apply (finished_loop_keeps _ _ _ _ _ _ _ _ _ Hkept).
Qed.

Lemma C6_totals_nonneg_witness :
  let status := status_of "slave1"
      [build_of "slave1" (sample_now - 700) sample_now] sample_finished in
  Forall (fun b => Forall well_formed (getCurrentBuilds b))
    (my_builders "slave1" status) /\
  Forall well_formed
    (generateFinishedBuilds status (map getName (my_builders "slave1" status))) /\
  exists t, duty_cycle_totals 7 86400 sample_now "slave1" status = Ok t /\
            length t = Z.to_nat 7 /\ Forall (Z.le 0) t.
Proof.
  cbv zeta.
  assert (Hcur : Forall (fun b => Forall well_formed (getCurrentBuilds b))
            (my_builders "slave1"
               (status_of "slave1"
                  [build_of "slave1" (sample_now - 700) sample_now]
                  sample_finished))).
  { repeat constructor; unfold well_formed; simpl; lia. }
  assert (Hfin : Forall well_formed sample_finished).
  { repeat constructor; unfold well_formed; simpl; lia. }
  split; [exact Hcur|]. split; [exact Hfin|].
  apply C6_totals_nonneg_for_well_formed; [exact Hcur|exact Hfin].
Defined.

(** C9, as stated, fails: with [count = 0] and [size = 0] the call
    returns normally, and so it does with a negative count and size. *)
Lemma C9_invalid_configuration_is_accepted :
  (0 <= 0 /\ add_to_buckets 0 [] 0 5 9 5 = Ok []) /\
  (-3 <= 0 /\ -86400 <= 0 /\
   add_to_buckets (-3) [4; 2] (-86400) 5 9 5 = Ok [4; 2]) /\
  (0 <= 0 /\ add_to_buckets 2 [0; 0] 0 5 9 7 = Ok [1; 1]).
Proof. repeat split; (lia || reflexivity). Qed.

(** C9, amended. Nothing validates the configuration: with
    [num_buckets <= 0] the call of [add_to_buckets] returns the accumulator
    unchanged; with any bucket size, also zero or negative, it returns an
    accumulator of the same length whenever the accumulator has at least
    [num_buckets] entries; and [determine_duty_cycle], which fixes
    [num_buckets = 7] and [bucket_size = 86400] itself, never raises. *)
Theorem C9_configuration_is_not_validated :
  (forall (num_buckets bucket_size start end_ now : Z) (buckets : list Z),
      num_buckets <= 0 ->
      add_to_buckets num_buckets buckets bucket_size start end_ now = Ok buckets) /\
  (forall (num_buckets bucket_size start end_ now : Z) (buckets : list Z),
      (Z.to_nat num_buckets <= length buckets)%nat ->
      exists t, add_to_buckets num_buckets buckets bucket_size start end_ now = Ok t
                /\ length t = length buckets) /\
  (forall (Slave : Type) (now : Z) (name : string) (status : Status)
          (slave : Slave),
      exists v, determine_duty_cycle now name status slave = Ok v).
Proof.
  split; [|split].
  - intros num_buckets bucket_size start end_ now buckets Hcount.
    unfold add_to_buckets, range. by replace (Z.to_nat num_buckets) with 0%nat by lia.
  - intros num_buckets bucket_size start end_ now buckets Hlen.
    rewrite add_to_buckets_bump by done. eexists; split; [done|apply bump_length].
  - intros Slave now name status slave.
    destruct (determine_duty_cycle_value now name status slave)
      as (totals & _ & _ & Hvalue).
    by eexists.
Qed.

Lemma C9_configuration_witness :
  (-1 <= 0 /\ add_to_buckets (-1) [3; 4] 0 5 9 5 = Ok [3; 4]) /\
  ((Z.to_nat 2 <= length [0; 0; 0])%nat /\
   exists t, add_to_buckets 2 [0; 0; 0] (-10) 5 9 7 = Ok t
             /\ length t = length [0; 0; 0]).
Proof.
  split.
  - split; [lia|].
    apply (proj1 C9_configuration_is_not_validated (-1) 0 5 9 5 [3; 4]). lia.
  - split; [simpl; lia|].
    apply (proj1 (proj2 C9_configuration_is_not_validated) 2 (-10) 5 9 7 [0; 0; 0]).
    simpl; lia.
Defined.

(** * Further properties of the aggregation *)

(** ** Exceptions and the length of the accumulator *)

Lemma bucket_step_outcome (bucket_size start end_ now : Z)
    (buckets : list Z) (n : nat) :
  match bucket_step bucket_size start end_ now buckets n with
  | Ok t => length t = length buckets
  | Raise e => e = IndexError /\ (length buckets <= n)%nat
  end.
Proof.
  rewrite bucket_step_classify. unfold iadd.
  destruct (buckets !! n) as [x|] eqn:Hx.
  - destruct (classify _ _ _ _ _); by rewrite ?length_insert.
  - apply lookup_ge_None in Hx. destruct (classify _ _ _ _ _); done.
Qed.

Lemma steps_outcome (bucket_size start end_ now : Z) (k : nat) (ns : list nat)
    (buckets : list Z) :
  Forall (fun n => (n < k)%nat) ns ->
  match for_each ns (bucket_step bucket_size start end_ now) buckets with
  | Ok t => length t = length buckets
  | Raise e => e = IndexError /\ (length buckets < k)%nat
  end.
Proof.
  intros Hns; revert buckets.
  induction Hns as [|n ns Hn _ IH]; intros buckets; simpl; [done|].
  pose proof (bucket_step_outcome bucket_size start end_ now buckets n) as Hstep.
  destruct (bucket_step _ _ _ _ _ _) as [t|e]; simpl.
  - specialize (IH t). destruct (for_each _ _ _); [congruence|].
    by rewrite <- Hstep.
  - destruct Hstep; split; [done|lia].
Qed.

(** X8. [add_to_buckets] keeps the length of the accumulator; the only
    exception it raises is [IndexError], only for an accumulator shorter
    than [num_buckets]; and it does raise it when an adding branch is
    taken for a bucket that the accumulator does not have. *)
Theorem X8_index_error_only_for_short_accumulator
    (num_buckets bucket_size start end_ now : Z) (buckets : list Z) :
  (forall t, add_to_buckets num_buckets buckets bucket_size start end_ now = Ok t ->
             length t = length buckets) /\
  (forall e, add_to_buckets num_buckets buckets bucket_size start end_ now = Raise e ->
             e = IndexError /\ (length buckets < Z.to_nat num_buckets)%nat) /\
  (forall n, (length buckets <= n < Z.to_nat num_buckets)%nat ->
             adds (classify bucket_size start end_ now n) = true ->
             add_to_buckets num_buckets buckets bucket_size start end_ now
               = Raise IndexError).
Proof.
  assert (Hrange : Forall (fun n => (n < Z.to_nat num_buckets)%nat)
            (range num_buckets)).
  { apply Forall_forall. intros n Hn. apply elem_of_seq in Hn. lia. }
  pose proof (steps_outcome bucket_size start end_ now _ _ buckets Hrange) as Hout.
  unfold add_to_buckets. split; [|split].
  - intros t Ht. by rewrite Ht in Hout.
  - intros e He. by rewrite He in Hout.
  - intros n [Hlo Hhi] Hadds. unfold range.
    replace (Z.to_nat num_buckets) with (n + S (Z.to_nat num_buckets - S n))%nat
      by lia.
    rewrite seq_app, for_each_app. simpl.
    assert (Hpre : Forall (fun i => (i < n)%nat) (seq 0 n)).
    { apply Forall_forall. intros i Hi. apply elem_of_seq in Hi. lia. }
    pose proof (steps_outcome bucket_size start end_ now _ _ buckets Hpre) as Hp.
    destruct (for_each (seq 0 n) _ buckets) as [t|e]; simpl; [|by destruct Hp as [-> _]].
    rewrite bucket_step_classify. unfold iadd.
    rewrite (proj2 (lookup_ge_None t n)) by lia.
    by destruct (classify _ _ _ _ _).
Qed.

Lemma X8_index_error_witness :
  (length (zeros 2) <= 2 < Z.to_nat 7)%nat /\
  adds (classify 86400 (sample_now - 3 * 86400 + 5) (sample_now - 3 * 86400 + 9)
          sample_now 2) = true /\
  add_to_buckets 7 (zeros 2) 86400 (sample_now - 3 * 86400 + 5)
    (sample_now - 3 * 86400 + 9) sample_now = Raise IndexError.
Proof.
  split; [simpl; lia|]. split; [reflexivity|].
  apply (proj2 (proj2 (X8_index_error_only_for_short_accumulator 7 86400
                         (sample_now - 3 * 86400 + 5) (sample_now - 3 * 86400 + 9)
                         sample_now (zeros 2))) 2%nat);
    [simpl; lia|reflexivity].
Defined.

(** ** Intervals outside the window, and builds of other slaves *)

Lemma classify_after_now (bucket_size start end_ now : Z) (n : nat) :
  0 <= bucket_size -> now < start ->
  classify bucket_size start end_ now n = Disjoint.
Proof.
  intros Hsize Hstart.
  assert (0 <= Z.of_nat n * bucket_size) by (apply Z.mul_nonneg_nonneg; lia).
  bucket_cases.
Qed.

(** X3. With a bucket size that is not negative, an interval that ended
    before the oldest bucket starts ([now - num_buckets * bucket_size]) or
    that starts after [now] leaves the accumulator as it is, whatever its
    length. *)
Theorem X3_interval_outside_window_adds_nothing
    (num_buckets bucket_size start end_ now : Z) (buckets : list Z) :
  0 <= bucket_size ->
  end_ < now - num_buckets * bucket_size \/ now < start ->
  add_to_buckets num_buckets buckets bucket_size start end_ now = Ok buckets.
Proof.
  intros Hsize [Hold|Hnew].
  - by apply add_to_buckets_beyond_reach.
  - apply steps_skip, Forall_forall. intros n _. by apply classify_after_now.
Qed.

Lemma X3_interval_outside_window_witness :
  0 <= 86400 /\
  (sample_now + 5 < sample_now - 7 * 86400 \/ sample_now < sample_now + 1) /\
  add_to_buckets 7 [3; 1; 4] 86400 (sample_now + 1) (sample_now + 5) sample_now
    = Ok [3; 1; 4].
Proof.
  split; [lia|]. split; [right; lia|].
  apply X3_interval_outside_window_adds_nothing; [lia|right; lia].
Defined.

Lemma add_builds_none_of_slave (name : string) (num_buckets bucket_size now : Z)
    (builds : list Build) (buckets : list Z) :
  Forall (fun cb => of_slave name cb = false) builds ->
  add_builds name num_buckets bucket_size now builds buckets = Ok buckets.
Proof.
  induction 1 as [|cb rest Hcb _ IH]; [done|].
  by rewrite add_builds_cons, Hcb, bind_Ok.
Qed.

Lemma current_loop_none_of_slave (name : string) (num_buckets bucket_size now : Z)
    (builders : list Builder) (buckets : list Z) :
  Forall (fun b => Forall (fun cb => of_slave name cb = false) (getCurrentBuilds b))
    builders ->
  current_loop name num_buckets bucket_size now builders buckets = Ok buckets.
Proof.
  unfold current_loop. induction 1 as [|bd rest Hbd _ IH]; [done|].
  simpl. by rewrite add_builds_none_of_slave, bind_Ok.
Qed.

Lemma finished_loop_none_of_slave (name : string)
    (num_buckets bucket_size now bucket_reach : Z)
    (rbs : list Build) (buckets : list Z) :
  Forall (fun rb => of_slave name rb = false) rbs ->
  finished_loop name num_buckets bucket_size now bucket_reach rbs buckets
    = Ok buckets.
Proof.
  induction 1 as [|rb rest Hrb _ IH]; [done|].
  by rewrite finished_loop_cons, Hrb.
Qed.

(** X1. When no current build of the slave's builders and no finished
    build belongs to the slave (in particular when there are no builds at
    all), the totals are [num_buckets] zeros and nothing is raised. *)
Theorem X1_no_builds_of_the_slave_gives_zeros
    (num_buckets bucket_size now : Z) (name : string) (status : Status) :
  Forall (fun b => Forall (fun cb => of_slave name cb = false) (getCurrentBuilds b))
    (my_builders name status) ->
  Forall (fun rb => of_slave name rb = false)
    (generateFinishedBuilds status (map getName (my_builders name status))) ->
  duty_cycle_totals num_buckets bucket_size now name status = Ok (zeros num_buckets).
Proof.
  intros Hcur Hfin. unfold duty_cycle_totals, zeros.
  rewrite current_loop_none_of_slave, bind_Ok by done.
  by apply finished_loop_none_of_slave.
Qed.

Lemma X1_no_builds_witness :
  let status := status_of "slave1" [build_of "slave2" 5 9]
                  [build_of "slave3" (sample_now - 50) (sample_now - 20)] in
  Forall (fun b => Forall (fun cb => of_slave "slave1" cb = false) (getCurrentBuilds b))
    (my_builders "slave1" status) /\
  Forall (fun rb => of_slave "slave1" rb = false)
    (generateFinishedBuilds status (map getName (my_builders "slave1" status))) /\
  duty_cycle_totals 7 86400 sample_now "slave1" status = Ok (zeros 7).
Proof.
  cbv zeta.
  assert (Hcur : Forall (fun b => Forall (fun cb => of_slave "slave1" cb = false)
                                    (getCurrentBuilds b))
            (my_builders "slave1"
               (status_of "slave1" [build_of "slave2" 5 9]
                  [build_of "slave3" (sample_now - 50) (sample_now - 20)]))).
  { repeat constructor. }
  assert (Hfin : Forall (fun rb => of_slave "slave1" rb = false)
            [build_of "slave3" (sample_now - 50) (sample_now - 20)]).
  { repeat constructor. }
  split; [exact Hcur|]. split; [exact Hfin|].
  apply X1_no_builds_of_the_slave_gives_zeros; [exact Hcur|exact Hfin].
Defined.

(** ** The order of the builds *)

Lemma bump_bump (k : nat) (c1 c2 : nat -> Z) (buckets : list Z) :
  bump k c1 (bump k c2 buckets) = bump k c2 (bump k c1 buckets).
Proof.
  apply list_eq; intros i. rewrite !bump_lookup.
  destruct (buckets !! i); simpl; [|done].
  f_equal. case_bool_decide; lia.
Qed.

Lemma add_builds_cons_bump (name : string) (num_buckets bucket_size now : Z)
    (cb : Build) (builds : list Build) (buckets : list Z) :
  (Z.to_nat num_buckets <= length buckets)%nat ->
  add_builds name num_buckets bucket_size now (cb :: builds) buckets =
  add_builds name num_buckets bucket_size now builds
    (if of_slave name cb then
       bump (Z.to_nat num_buckets)
         (contribution bucket_size (getTimes cb).1 (getTimes cb).2 now) buckets
     else buckets).
Proof.
  intros Hlen. rewrite add_builds_cons. destruct (of_slave name cb); [|done].
  by rewrite add_to_buckets_bump.
Qed.

(** X2. The totals do not depend on the order in which the loop of lines
    272-275 meets the builds: two lists of builds that are permutations of
    each other give the same accumulator. *)
Theorem X2_totals_independent_of_order
    (name : string) (num_buckets bucket_size now : Z)
    (builds builds' : list Build) (buckets : list Z) :
  (Z.to_nat num_buckets <= length buckets)%nat ->
  builds ≡ₚ builds' ->
  add_builds name num_buckets bucket_size now builds buckets =
  add_builds name num_buckets bucket_size now builds' buckets.
Proof.
  intros Hlen Hperm. revert buckets Hlen.
  induction Hperm as [|cb l l' _ IH|cb1 cb2 l|l l' l'' _ IH1 _ IH2];
    intros buckets Hlen.
  - done.
  - rewrite !add_builds_cons_bump by done.
    apply IH. destruct (of_slave name cb); by rewrite ?bump_length.
  - rewrite (add_builds_cons_bump _ _ _ _ cb2 (cb1 :: l)) by done.
    rewrite (add_builds_cons_bump _ _ _ _ cb1 (cb2 :: l)) by done.
    rewrite !add_builds_cons_bump
      by (destruct (of_slave name cb1), (of_slave name cb2);
          by rewrite ?bump_length).
    f_equal. destruct (of_slave name cb1), (of_slave name cb2); try done.
    by rewrite bump_bump.
  - rewrite IH1 by done. by apply IH2.
Qed.

Lemma X2_totals_independent_of_order_witness :
  (Z.to_nat 7 <= length (zeros 7))%nat /\
  sample_finished ≡ₚ reverse sample_finished /\
  add_builds "slave1" 7 86400 sample_now sample_finished (zeros 7) =
  add_builds "slave1" 7 86400 sample_now (reverse sample_finished) (zeros 7).
Proof.
  split; [simpl; lia|]. split; [symmetry; apply reverse_Permutation|].
  apply X2_totals_independent_of_order;
    [simpl; lia|symmetry; apply reverse_Permutation].
Defined.

(** ** Bounds on what one interval adds *)

Lemma contribution_bounds (bucket_size start end_ now : Z) (n : nat) :
  1 <= bucket_size -> start <= end_ ->
  0 <= contribution bucket_size start end_ now n <= bucket_size.
Proof. intros Hsize Hwf. bucket_cases. Qed.

Lemma contribution_le_overlap (bucket_size start end_ now : Z) (n : nat) :
  1 <= bucket_size -> start <= end_ ->
  contribution bucket_size start end_ now n
    <= overlap_length bucket_size start end_ now n.
Proof. intros Hsize Hwf. unfold overlap_length. bucket_cases. Qed.

(** X5. With a bucket size of at least one and [start <= end], one call
    of [add_to_buckets] raises each entry by at least zero and at most the
    bucket size. *)
Theorem X5_one_interval_adds_at_most_bucket_size
    (num_buckets bucket_size start end_ now : Z) (buckets : list Z) :
  1 <= bucket_size -> start <= end_ ->
  (Z.to_nat num_buckets <= length buckets)%nat ->
  exists t,
    add_to_buckets num_buckets buckets bucket_size start end_ now = Ok t /\
    Forall2 (fun x y => x <= y <= x + bucket_size) buckets t.
Proof.
  intros Hsize Hwf Hlen. rewrite add_to_buckets_bump by done.
  eexists; split; [done|].
  apply Forall2_same_length_lookup. split; [by rewrite bump_length|].
  intros i x y Hx. rewrite bump_lookup, Hx; simpl. intros [= <-].
  pose proof (contribution_bounds bucket_size start end_ now i Hsize Hwf).
  case_bool_decide; lia.
Qed.

Lemma X5_one_interval_witness :
  1 <= 86400 /\ sample_now - 200000 <= sample_now - 100000 /\
  (Z.to_nat 7 <= length (zeros 7))%nat /\
  exists t,
    add_to_buckets 7 (zeros 7) 86400 (sample_now - 200000) (sample_now - 100000)
      sample_now = Ok t /\
    Forall2 (fun x y => x <= y <= x + 86400) (zeros 7) t.
Proof.
  split; [lia|]. split; [lia|]. split; [simpl; lia|].
  apply X5_one_interval_adds_at_most_bucket_size; [lia|lia|simpl; lia].
Defined.

(** ** No time is counted twice *)

Lemma total_app (xs ys : list Z) : total (xs ++ ys) = total xs + total ys.
Proof. unfold total. induction xs as [|x xs IH]; simpl; lia. Qed.

Lemma total_insert (xs : list Z) (i : nat) (x y : Z) :
  xs !! i = Some x -> total (<[i := y]> xs) = total xs - x + y.
Proof.
  revert i. induction xs as [|z xs IH]; intros [|i] Hx; simpl in *; try done.
  - injection Hx as ->. lia.
  - rewrite (IH i Hx). lia.
Qed.

Lemma total_bump (k : nat) (c : nat -> Z) (buckets : list Z) :
  (k <= length buckets)%nat ->
  total (bump k c buckets) = total buckets + total (c <$> seq 0 k).
Proof.
  induction k as [|k IH]; intros Hk.
  - rewrite bump_0. simpl. lia.
  - destruct (lookup_lt_is_Some_2 buckets k) as [x Hx]; [lia|].
    rewrite <- (bump_S k c buckets x Hx).
    rewrite (total_insert _ _ x).
    + rewrite IH by lia. rewrite seq_S, fmap_app, total_app. simpl. lia.
    + rewrite bump_lookup, Hx. simpl. by rewrite bool_decide_eq_false_2 by lia.
Qed.

(** The first [k] buckets together hold no more of the interval than the
    window that they cover. *)
Lemma contributions_le_window (bucket_size start end_ now : Z) (k : nat) :
  1 <= bucket_size -> start <= end_ ->
  total (contribution bucket_size start end_ now <$> seq 0 k)
    <= window_overlap bucket_size start end_ now k.
Proof.
  intros Hsize Hwf. induction k as [|k IH].
  - unfold window_overlap. simpl. lia.
  - rewrite seq_S, fmap_app, total_app. simpl.
    pose proof (contribution_le_overlap bucket_size start end_ now k Hsize Hwf)
      as Hk.
    assert (0 <= Z.of_nat k * bucket_size) by (apply Z.mul_nonneg_nonneg; lia).
    unfold window_overlap, overlap_length in *.
    replace (Z.of_nat (S k) * bucket_size)
      with (Z.of_nat k * bucket_size + bucket_size) by lia.
    replace ((Z.of_nat k + 1) * bucket_size)
      with (Z.of_nat k * bucket_size + bucket_size) in Hk by lia.
    lia.
Qed.

(** X6. With a bucket size of at least one and [start <= end], the sum
    of all the totals grows, in one call of [add_to_buckets], by at most
    the duration [end - start] of the interval: no second is counted in
    two buckets. *)
Theorem X6_one_interval_adds_at_most_its_duration
    (num_buckets bucket_size start end_ now : Z) (buckets : list Z) :
  1 <= bucket_size -> start <= end_ ->
  (Z.to_nat num_buckets <= length buckets)%nat ->
  exists t,
    add_to_buckets num_buckets buckets bucket_size start end_ now = Ok t /\
    total buckets <= total t <= total buckets + (end_ - start).
Proof.
  intros Hsize Hwf Hlen. rewrite add_to_buckets_bump by done.
  eexists; split; [done|]. rewrite total_bump by done.
  pose proof (contributions_le_window bucket_size start end_ now
                (Z.to_nat num_buckets) Hsize Hwf) as Hup.
  assert (Hlow : 0 <= total (contribution bucket_size start end_ now
                               <$> seq 0 (Z.to_nat num_buckets))).
  { generalize (seq 0 (Z.to_nat num_buckets)). intros ns.
    unfold total. induction ns as [|n ns IH]; csimpl; [lia|].
    pose proof (contribution_nonneg bucket_size start end_ now n Hwf). lia. }
  unfold window_overlap in Hup. lia.
Qed.

Lemma X6_one_interval_witness :
  1 <= 86400 /\ sample_now - 200000 <= sample_now - 100000 /\
  (Z.to_nat 7 <= length (zeros 7))%nat /\
  exists t,
    add_to_buckets 7 (zeros 7) 86400 (sample_now - 200000) (sample_now - 100000)
      sample_now = Ok t /\
    total (zeros 7) <= total t
      <= total (zeros 7) + (sample_now - 100000 - (sample_now - 200000)).
Proof.
  split; [lia|]. split; [lia|]. split; [simpl; lia|].
  apply X6_one_interval_adds_at_most_its_duration; [lia|lia|simpl; lia].
Defined.

(** ** An interval inside one bucket *)

Lemma contribution_inside_bucket (bucket_size start end_ now : Z) (n k : nat) :
  now - (Z.of_nat n + 1) * bucket_size <= start -> start <= end_ ->
  end_ < now - Z.of_nat n * bucket_size ->
  contribution bucket_size start end_ now k =
    if decide (k = n) then end_ - start else 0.
Proof.
  intros Hlo Hwf Hhi.
  assert (0 < bucket_size) by lia.
  case_decide as Hk.
  - subst k. bucket_cases.
  - assert (Z.of_nat k + 1 <= Z.of_nat n \/ Z.of_nat n + 1 <= Z.of_nat k)
      as [Hlt|Hgt] by lia.
    + assert ((Z.of_nat k + 1) * bucket_size <= Z.of_nat n * bucket_size)
        by (apply Z.mul_le_mono_nonneg_r; lia).
      bucket_cases.
    + assert ((Z.of_nat n + 1) * bucket_size <= Z.of_nat k * bucket_size)
        by (apply Z.mul_le_mono_nonneg_r; lia).
      bucket_cases.
Qed.

(** X4. An interval that lies inside bucket [n]
    ([bucket_start <= start <= end < bucket_end]) adds its whole duration
    to the total of bucket [n] and nothing to any other total. *)
Theorem X4_interval_inside_one_bucket
    (num_buckets bucket_size start end_ now : Z) (n : nat) (x : Z)
    (buckets : list Z) :
  now - (Z.of_nat n + 1) * bucket_size <= start -> start <= end_ ->
  end_ < now - Z.of_nat n * bucket_size ->
  (n < Z.to_nat num_buckets <= length buckets)%nat ->
  buckets !! n = Some x ->
  add_to_buckets num_buckets buckets bucket_size start end_ now =
    Ok (<[n := x + (end_ - start)]> buckets).
Proof.
  intros Hlo Hwf Hhi Hn Hx. rewrite add_to_buckets_bump by lia.
  f_equal. apply list_eq; intros i. rewrite bump_lookup.
  rewrite (contribution_inside_bucket _ _ _ _ n i) by done.
  destruct (decide (i = n)) as [->|Hne].
  - rewrite list_lookup_insert_eq by lia. rewrite Hx. simpl.
    by rewrite bool_decide_eq_true_2 by lia.
  - rewrite list_lookup_insert_ne by done.
    destruct (buckets !! i); simpl; [|done].
    case_bool_decide; f_equal; lia.
Qed.

Lemma X4_interval_inside_one_bucket_witness :
  sample_now - (Z.of_nat 1 + 1) * 86400 <= sample_now - 100000 /\
  sample_now - 100000 <= sample_now - 90000 /\
  sample_now - 90000 < sample_now - Z.of_nat 1 * 86400 /\
  (1 < Z.to_nat 7 <= length sample_accumulator)%nat /\
  add_to_buckets 7 sample_accumulator 86400 (sample_now - 100000)
    (sample_now - 90000) sample_now
    = Ok [5; 10006; 7; 8; 9; 10; 11].
Proof.
  assert (H1 : sample_now - (Z.of_nat 1 + 1) * 86400 <= sample_now - 100000)
    by (simpl; lia).
  assert (H2 : sample_now - 90000 < sample_now - Z.of_nat 1 * 86400)
    by (simpl; lia).
  split; [exact H1|]. split; [lia|]. split; [exact H2|]. split; [simpl; lia|].
  rewrite (X4_interval_inside_one_bucket 7 86400 (sample_now - 100000)
             (sample_now - 90000) sample_now 1 6 sample_accumulator);
    [reflexivity|exact H1|lia|exact H2|simpl; lia|reflexivity].
Defined.

(** ** Only the times relative to [now] matter *)

Lemma ltb_shift (a b d : Z) : (a + d <? b + d) = (a <? b).
Proof. destruct (Z.ltb_spec a b), (Z.ltb_spec (a + d) (b + d)); lia. Qed.

Lemma leb_shift (a b d : Z) : (a + d <=? b + d) = (a <=? b).
Proof. destruct (Z.leb_spec a b), (Z.leb_spec (a + d) (b + d)); lia. Qed.

Lemma classify_shift (bucket_size start end_ now d : Z) (n : nat) :
  classify bucket_size (start + d) (end_ + d) (now + d) n =
  classify bucket_size start end_ now n.
Proof.
  unfold classify, between. rewrite !Z.gtb_ltb.
  replace (now + d - (Z.of_nat n + 1) * bucket_size)
    with (now - (Z.of_nat n + 1) * bucket_size + d) by lia.
  replace (now + d - Z.of_nat n * bucket_size)
    with (now - Z.of_nat n * bucket_size + d) by lia.
  by rewrite !ltb_shift, !leb_shift.
Qed.

Lemma contribution_shift (bucket_size start end_ now d : Z) (n : nat) :
  contribution bucket_size (start + d) (end_ + d) (now + d) n =
  contribution bucket_size start end_ now n.
Proof.
  unfold contribution. rewrite classify_shift.
  destruct (classify bucket_size start end_ now n); lia.
Qed.

Lemma for_each_ext {A S : Type} (body body' : S -> A -> result S)
    (xs : list A) (s : S) :
  (forall s x, body s x = body' s x) ->
  for_each xs body s = for_each xs body' s.
Proof.
  intros Hext. revert s. induction xs as [|x xs IH]; intros s; simpl; [done|].
  rewrite Hext. destruct (body' s x); simpl; auto.
Qed.

(** X7. Moving [start], [end] and [now] by the same amount changes
    nothing: the call returns the same accumulator, or raises the same
    exception. *)
Theorem X7_shift_invariance
    (num_buckets bucket_size start end_ now d : Z) (buckets : list Z) :
  add_to_buckets num_buckets buckets bucket_size (start + d) (end_ + d) (now + d) =
  add_to_buckets num_buckets buckets bucket_size start end_ now.
Proof.
  unfold add_to_buckets. apply for_each_ext. intros b n.
  by rewrite !bucket_step_classify, classify_shift, contribution_shift.
Qed.

(** ** The normalisation loop of lines 284-285 *)

(** X9. With a positive bucket size and an accumulator of at least
    [num_buckets] entries the loop raises nothing, keeps the length, and
    replaces each of the first [num_buckets] entries [x] by the floor
    quotient [q] of [x] by the bucket size
    ([size * q <= x < size * q + size]); later entries stay.  With a bucket
    size of zero, a positive [num_buckets] and an accumulator that is not
    empty it raises [ZeroDivisionError]. *)
Theorem X9_normalize_is_floor_division
    (num_buckets bucket_size : Z) (buckets : list Z) :
  (0 < bucket_size -> (Z.to_nat num_buckets <= length buckets)%nat ->
   exists t,
     normalize num_buckets bucket_size buckets = Ok t /\
     length t = length buckets /\
     forall i x, buckets !! i = Some x ->
       exists q, t !! i = Some q /\
         if bool_decide (i < Z.to_nat num_buckets)%nat
         then bucket_size * q <= x < bucket_size * q + bucket_size
         else q = x) /\
  (bucket_size = 0 -> 0 < num_buckets -> buckets <> [] ->
   normalize num_buckets bucket_size buckets = Raise ZeroDivisionError).
Proof.
  split.
  - intros Hsize Hlen. rewrite normalize_scaled by (done || lia).
    eexists; split; [done|]. split; [apply scaled_length|].
    intros i x Hx. rewrite scaled_lookup, Hx. simpl.
    eexists; split; [done|]. case_bool_decide; [|done].
    pose proof (Z.mul_div_le x bucket_size Hsize).
    pose proof (Z.mul_succ_div_gt x bucket_size Hsize). lia.
  - intros -> Hcount Hne. unfold normalize, range.
    destruct (Z.to_nat num_buckets) as [|k] eqn:Hk; [lia|].
    destruct buckets as [|x rest]; [done|]. reflexivity.
Qed.

Lemma X9_normalize_witness :
  (0 < 86400 /\ (Z.to_nat 7 <= length sample_totals)%nat /\
   exists t,
     normalize 7 86400 sample_totals = Ok t /\
     length t = length sample_totals /\
     forall i x, sample_totals !! i = Some x ->
       exists q, t !! i = Some q /\
         if bool_decide (i < Z.to_nat 7)%nat
         then 86400 * q <= x < 86400 * q + 86400
         else q = x) /\
  (0 = 0 /\ 0 < 7 /\ [4; 2] <> [] /\
   normalize 7 0 [4; 2] = Raise ZeroDivisionError).
Proof.
  split.
  - split; [lia|]. split; [simpl; lia|].
    apply (proj1 (X9_normalize_is_floor_division 7 86400
                    sample_totals)); [lia|simpl; lia].
  - split; [done|]. split; [lia|]. split; [done|].
    apply (proj2 (X9_normalize_is_floor_division 7 0 [4; 2])); [done|lia|done].
Defined.

(** ** The two loops of [determine_duty_cycle] together *)

Lemma current_loop_flat (name : string) (num_buckets bucket_size now : Z)
    (builders : list Builder) (buckets : list Z) :
  current_loop name num_buckets bucket_size now builders buckets =
  add_builds name num_buckets bucket_size now
    (flat_map getCurrentBuilds builders) buckets.
Proof.
  unfold current_loop. revert buckets.
  induction builders as [|b rest IH]; intros buckets; simpl; [done|].
  rewrite add_builds_app.
  destruct (add_builds _ _ _ _ (getCurrentBuilds b) buckets); simpl; auto.
Qed.

(** X10. When the finished builds of the slave come in non-increasing
    order of their end and the bucket size is not negative, the totals of
    [determine_duty_cycle] are those of adding every current build of the
    slave's builders and every finished build to [num_buckets] zeros: the
    [break] drops nothing that counts. *)
Theorem X10_totals_are_the_sum_over_all_builds
    (num_buckets bucket_size now : Z) (name : string) (status : Status) :
  0 <= bucket_size ->
  Sorted ends_descending
    (List.filter (of_slave name)
       (generateFinishedBuilds status (map getName (my_builders name status)))) ->
  duty_cycle_totals num_buckets bucket_size now name status =
  add_builds name num_buckets bucket_size now
    (flat_map getCurrentBuilds (my_builders name status) ++
     generateFinishedBuilds status (map getName (my_builders name status)))
    (zeros num_buckets).
Proof.
  intros Hsize Hsorted. unfold duty_cycle_totals, zeros.
  rewrite add_builds_app, current_loop_flat.
  destruct (add_builds _ _ _ _ (flat_map _ _) _) as [t|e]; simpl; [|done].
  apply finished_loop_add_builds; [done|].
  apply Sorted_StronglySorted; [apply ends_descending_trans|done].
Qed.

Lemma X10_totals_witness :
  let status := status_of "slave1"
      [build_of "slave1" (sample_now - 700) sample_now] sample_finished in
  0 <= 86400 /\
  Sorted ends_descending
    (List.filter (of_slave "slave1")
       (generateFinishedBuilds status (map getName (my_builders "slave1" status)))) /\
  duty_cycle_totals 7 86400 sample_now "slave1" status =
  add_builds "slave1" 7 86400 sample_now
    (flat_map getCurrentBuilds (my_builders "slave1" status) ++
     generateFinishedBuilds status (map getName (my_builders "slave1" status)))
    (zeros 7).
Proof.
  cbv zeta.
  assert (Hsorted :
    Sorted ends_descending (List.filter (of_slave "slave1") sample_finished)).
  { simpl. repeat constructor; unfold ends_descending; simpl; lia. }
  split; [lia|]. split; [exact Hsorted|].
  apply X10_totals_are_the_sum_over_all_builds; [lia|exact Hsorted].
Defined.

(** * The pages of the slaves *)

(** ** The list of recent builds *)

Lemma recent_loop_take {L : Type} (get_line_values : Build -> L)
    (slavename : string) (max_builds : Z) (rbs : list Build) (n : Z)
    (recent_builds : list L) :
  recent_loop get_line_values slavename max_builds rbs n recent_builds =
  recent_builds ++
    (get_line_values <$>
       take (S (Z.to_nat (max_builds - n))) (List.filter (of_slave slavename) rbs)).
Proof.
  revert n recent_builds.
  induction rbs as [|rb rest IH]; intros n recent_builds; simpl.
  - by rewrite app_nil_r.
  - unfold of_slave at 1. destruct (String.eqb (getSlavename rb) slavename).
    + rewrite Z.gtb_ltb. destruct (Z.ltb_spec max_builds (n + 1)) as [Hstop|Hgo].
      * simpl. by replace (Z.to_nat (max_builds - n)) with 0%nat by lia.
      * rewrite IH, <- app_assoc. simpl.
        replace (Z.to_nat (max_builds - n))
          with (S (Z.to_nat (max_builds - (n + 1)))) by lia.
        done.
    + apply IH.
Qed.

Lemma recent_loop_prefix {L : Type} (get_line_values : Build -> L)
    (slavename : string) (max_builds : Z) (rbs : list Build) :
  recent_loop get_line_values slavename max_builds rbs 0 [] =
  get_line_values <$>
    take (S (Z.to_nat max_builds)) (List.filter (of_slave slavename) rbs).
Proof. rewrite recent_loop_take. simpl. by rewrite Z.sub_0_r. Qed.

(** X11. The loop of lines 121-128 collects the finished builds of the
    slave in the order of the generator and stops after
    [max_builds + 1] of them (after the first when [max_builds <= 0]):
    its result is the line values of the first [max_builds + 1] finished
    builds of the slave, so it never holds more than that many. *)
Theorem X11_recent_builds_are_a_prefix {L : Type} (get_line_values : Build -> L)
    (slavename : string) (max_builds : Z) (rbs : list Build) :
  recent_loop get_line_values slavename max_builds rbs 0 [] =
    get_line_values <$>
      take (S (Z.to_nat max_builds)) (List.filter (of_slave slavename) rbs) /\
  (length (recent_loop get_line_values slavename max_builds rbs 0 [])
     <= S (Z.to_nat max_builds))%nat.
Proof.
  rewrite recent_loop_prefix. split; [done|].
  rewrite length_fmap, length_take. lia.
Qed.

(** X12. [OneBuildSlaveResource.content] raises [KeyError] for an unknown
    slave and, for a known slave, [TypeError] when the request has no
    [numbuilds] argument; the default of 10 applies only to a value that
    [int] rejects.  When it returns, [recent] holds the first
    [max_builds + 1] finished builds of the slave, and the pause link names
    the child that inverts the state of the slave. *)
Theorem X12_content_errors_and_lists {Slave L : Type} `{!SlaveStatus Slave}
    (get_line_values : Build -> L) (int : string -> option Z)
    (slaves : gmap string Slave) (status : Status)
    (args : gmap string (list string)) (slavename : string) :
  (slaves !! slavename = None ->
   one_slave_content get_line_values int slaves status args slavename
     = Fail KeyError) /\
  (is_Some (slaves !! slavename) -> args !! "numbuilds"%string = None ->
   one_slave_content get_line_values int slaves status args slavename
     = Fail TypeError) /\
  (forall slave v vs,
     slaves !! slavename = Some slave ->
     args !! "numbuilds"%string = Some (v :: vs) ->
     exists ctx,
       one_slave_content get_line_values int slaves status args slavename
         = Done ctx /\
       ctx_recent ctx =
         get_line_values <$>
           take (S (Z.to_nat (default 10 (int v))))
             (List.filter (of_slave slavename)
                (generateFinishedBuilds status
                   (map getName (my_builders slavename status)))) /\
       ctx_pause_child ctx = if isPaused slave then "unpause"%string
                             else "pause"%string).
Proof.
  unfold one_slave_content, max_builds_of. split; [|split].
  - by intros ->.
  - by intros [slave ->] ->.
  - intros slave v vs -> ->.
    destruct (int v) as [m|]; simpl;
      (eexists; split; [done|]; simpl;
       by rewrite recent_loop_prefix).
Qed.

Lemma X12_content_witness :
  let int := fun v : string => if String.eqb v "1" then Some 1 else None in
  let no_args : gmap string (list string) := ∅ in
  let args : gmap string (list string) := {[ "numbuilds"%string := ["1"%string] ]} in
  (sample_slaves !! "slave9"%string = None /\
   one_slave_content getTimes int sample_slaves sample_status args "slave9"
     = Fail KeyError) /\
  (is_Some (sample_slaves !! "slave1"%string) /\
   no_args !! "numbuilds"%string = None /\
   one_slave_content getTimes int sample_slaves sample_status no_args "slave1"
     = Fail TypeError) /\
  exists ctx,
    one_slave_content getTimes int sample_slaves sample_status args "slave1"
      = Done ctx /\
    ctx_recent ctx =
      getTimes <$>
        take (S (Z.to_nat (default 10 (int "1"%string))))
          (List.filter (of_slave "slave1")
             (generateFinishedBuilds sample_status
                (map getName (my_builders "slave1" sample_status)))) /\
    ctx_pause_child ctx = if isPaused {| graceful := false; paused := false |}
                          then "unpause"%string else "pause"%string.
Proof.
  cbv zeta.
  pose proof (X12_content_errors_and_lists getTimes
                (fun v : string => if String.eqb v "1" then Some 1 else None)
                sample_slaves sample_status) as Hcontent.
  split; [|split].
  - split; [reflexivity|]. by apply (proj1 (Hcontent _ "slave9"%string)).
  - split; [by eexists|]. split; [reflexivity|].
    apply (proj1 (proj2 (Hcontent ∅ "slave1"%string))); [by eexists|reflexivity].
  - apply (proj2 (proj2 (Hcontent {[ "numbuilds"%string := ["1"%string] ]}
                           "slave1"%string))
             {| graceful := false; paused := false |} "1"%string []);
      reflexivity.
Defined.

(** ** The dictionary [used_by_builder] *)

Lemma extend_app (entry : option (list string)) (l1 l2 : list string) :
  extend (extend entry l1) l2 = extend entry (l1 ++ l2).
Proof.
  destruct l1 as [|x l1]; [done|].
  destruct l2 as [|y l2]; simpl; [by rewrite app_nil_r|].
  by rewrite <- app_assoc.
Qed.

(** The inner loop, lines 175-179, for one builder. *)
Lemma used_by_builder_inner (bname name : string) (slavenames : list string)
    (used : gmap string (list string)) :
  foldl (fun used slavename =>
           let used :=
             match used !! slavename with
             | None => <[slavename := []]> used
             | Some _ => used
             end in
           alter (fun bnames => bnames ++ [bname]) slavename used)
    used slavenames !! name =
  extend (used !! name)
    (flat_map (fun bs => if String.eqb bs name then [bname] else []) slavenames).
Proof.
  revert used. induction slavenames as [|sl rest IH]; intros used; [done|].
  cbn [foldl flat_map]. rewrite IH. clear IH.
  destruct (String.eqb_spec sl name) as [->|Hne].
  - rewrite <- extend_app. f_equal. rewrite lookup_alter_eq.
    destruct (used !! name) as [l|] eqn:Hl; simpl.
    + by rewrite Hl.
    + by rewrite lookup_insert_eq.
  - simpl. rewrite lookup_alter_ne by done.
    destruct (used !! sl); [done|]. by rewrite lookup_insert_ne.
Qed.

Lemma used_by_builder_outer (status : Status) (name : string)
    (bnames : list string) (used : gmap string (list string)) :
  foldl (fun used bname =>
           let b := getBuilder status bname in
           foldl (fun used slavename =>
                    let used :=
                      match used !! slavename with
                      | None => <[slavename := []]> used
                      | Some _ => used
                      end in
                    alter (fun bnames => bnames ++ [bname]) slavename used)
             used (getSlaves b))
    used bnames !! name =
  extend (used !! name) (listing status name bnames).
Proof.
  revert used. induction bnames as [|bname rest IH]; intros used; [done|].
  cbn [foldl]. rewrite IH. cbv zeta. rewrite used_by_builder_inner.
  unfold listing. cbn [flat_map]. by rewrite extend_app.
Qed.

Lemma used_by_builder_lookup (status : Status) (name : string) :
  used_by_builder status !! name =
  extend None (listing status name (getBuilderNames status)).
Proof.
  unfold used_by_builder. rewrite used_by_builder_outer. by rewrite lookup_empty.
Qed.

Lemma builders_of_listing (status : Status) (name : string) :
  builders_of status name = listing status name (getBuilderNames status).
Proof.
  unfold builders_of. rewrite used_by_builder_lookup.
  by destruct (listing status name (getBuilderNames status)).
Qed.

Lemma elem_of_listing (status : Status) (name bname : string)
    (bnames : list string) :
  bname ∈ listing status name bnames <->
  bname ∈ bnames /\ name ∈ getSlaves (getBuilder status bname).
Proof.
  unfold listing. rewrite list_elem_of_In, in_flat_map. split.
  - intros (b & Hb & Hin). apply in_flat_map in Hin as (sl & Hsl & Hin).
    destruct (String.eqb_spec sl name) as [->|]; [|by destruct Hin].
    destruct Hin as [<-|[]]. by rewrite !list_elem_of_In.
  - intros [Hb Hsl]. exists bname. split; [by apply list_elem_of_In|].
    apply in_flat_map. exists name. split; [by apply list_elem_of_In|].
    rewrite String.eqb_refl. by left.
Qed.

(** X13. After the loops of lines 172-179, the entry of a slave in
    [used_by_builder] holds exactly the names of the builders that list
    the slave; a slave that no builder lists has no entry, and no entry is
    an empty list. *)
Theorem X13_used_by_builder_entries (status : Status) (name : string) :
  (forall bname,
     bname ∈ builders_of status name <->
     bname ∈ getBuilderNames status /\
     name ∈ getSlaves (getBuilder status bname)) /\
  (used_by_builder status !! name = None <->
   forall bname, bname ∈ getBuilderNames status ->
                 name ∉ getSlaves (getBuilder status bname)) /\
  used_by_builder status !! name <> Some [].
Proof.
  split; [|split].
  - intros bname. rewrite builders_of_listing. apply elem_of_listing.
  - rewrite used_by_builder_lookup.
    pose proof (elem_of_listing status name) as Hin.
    destruct (listing status name (getBuilderNames status)) as [|b l] eqn:Hl;
      simpl.
    + split; [|done]. intros _ bname Hb Hsl.
      apply (not_elem_of_nil bname). rewrite <- Hl. by apply Hin.
    + split; [done|]. intros Hnone. exfalso.
      destruct (proj1 (Hin b (getBuilderNames status))) as [Hb Hsl];
        [rewrite Hl; left|].
      by apply (Hnone b).
  - rewrite used_by_builder_lookup.
    by destruct (listing status name (getBuilderNames status)).
Qed.

Lemma fmap_listing (status : Status) (name : string) (bnames : list string) :
  getBuilder status <$> listing status name bnames =
  flat_map (fun bname =>
    let b := getBuilder status bname in
    flat_map (fun bs => if String.eqb bs name then [b] else []) (getSlaves b))
    bnames.
Proof.
  unfold listing. induction bnames as [|bname rest IH]; [done|].
  cbn [flat_map]. rewrite fmap_app, IH. f_equal. cbv zeta.
  induction (getSlaves (getBuilder status bname)) as [|sl sls IHs]; [done|].
  cbn [flat_map]. rewrite fmap_app, IHs. by destruct (String.eqb sl name).
Qed.

(** X14. The two pages agree on the builders of a slave: the builders
    that [determine_duty_cycle] and [OneBuildSlaveResource.content] collect
    for a slave (lines 262-267 and 102-107) are the builders named by the
    slave's entry of [used_by_builder], in the same order and with the same
    repetitions. *)
Theorem X14_my_builders_are_used_by_builder (status : Status) (name : string) :
  my_builders name status = getBuilder status <$> builders_of status name.
Proof. by rewrite builders_of_listing, fmap_listing. Qed.

Lemma X13_used_by_builder_witness :
  ("b2"%string ∈ getBuilderNames sample_status /\
   "slave2"%string ∈ getSlaves (getBuilder sample_status "b2")) /\
  "b2"%string ∈ builders_of sample_status "slave2".
Proof.
  assert (Hlisted : "b2"%string ∈ getBuilderNames sample_status /\
                    "slave2"%string ∈ getSlaves (getBuilder sample_status "b2")).
  { split; simpl; [apply list_elem_of_In; simpl; tauto|left]. }
  split; [exact Hlisted|].
  apply (proj1 (X13_used_by_builder_entries sample_status "slave2")).
  exact Hlisted.
Defined.

(** ** The resources *)

Section Resources.
Context {Request Slave : Type} `{!SlaveStatus Slave} `{!WebBase Request Slave}.

(** X15. [BuildSlavesResource.getChild] raises nothing: it catches the
    [KeyError] of an unknown slave and answers [NoResource]; it answers the
    page of the slave exactly when the slave is known, and then no child of
    that page raises [KeyError], which a page made for an unknown slave
    does for every child. *)
Theorem X15_getChild_and_unknown_slaves (html_escape : string -> string)
    (slaves : gmap string Slave) (path : string) :
  (slaves !! path = None ->
   slaves_getChild html_escape slaves path =
     NoResource ("No such slave '" +:+ html_escape path +:+ "'")) /\
  (is_Some (slaves !! path) <->
   slaves_getChild html_escape slaves path = OneBuildSlaveResource path) /\
  (forall slavename,
     slaves_getChild html_escape slaves path = OneBuildSlaveResource slavename ->
     forall (child : string) (req : Request),
       exists r, one_slave_getChild slaves slavename child req = Done r) /\
  (slaves !! path = None ->
   forall (child : string) (req : Request),
     one_slave_getChild slaves path child req = Fail KeyError).
Proof.
  unfold slaves_getChild, one_slave_getChild. repeat split.
  - by intros ->.
  - by intros [slave ->].
  - destruct (slaves !! path); [by eexists|done].
  - intros slavename Hpage child req.
    destruct (slaves !! path) as [slave|] eqn:Hpath; [|done].
    injection Hpage as <-. rewrite Hpath.
    repeat case_match; by eexists.
  - by intros ->.
Qed.

(** X16. A request that the authorisation refuses changes no slave: for
    every child path the dictionary of the slaves stays as it was, and the
    three action paths answer the URL of the authorisation failure. *)
Theorem X16_refused_request_changes_nothing
    (slaves : gmap string Slave) (slavename path : string)
    (slave : Slave) (request : Request) :
  slaves !! slavename = Some slave ->
  actionAllowed "gracefulShutdown" request slave = false ->
  actionAllowed "pauseSlave" request slave = false ->
  request_child slaves slavename path request =
    Done (slaves,
          if String.eqb path "shutdown" || String.eqb path "pause"
             || String.eqb path "unpause"
          then path_to_authzfail request
          else path_to_slave request slave).
Proof.
  intros Hslave Hshutdown Hpause.
  unfold request_child, one_slave_getChild. rewrite Hslave.
  destruct (String.eqb path "shutdown"); simpl.
  - unfold shutdown_performAction. rewrite Hshutdown.
    by rewrite insert_id.
  - destruct (String.eqb path "pause" || String.eqb path "unpause"); simpl;
      [|done].
    unfold pause_performAction. rewrite Hpause. by rewrite insert_id.
Qed.

(** X17. A request for a child of the page of one slave reaches that
    slave only, and only through its setters: the dictionary afterwards is
    the old one, or the old one with the slave after [setGraceful(True)]
    (only for the path [shutdown]) or after [setPaused(path == "pause")]
    (only for the paths [pause] and [unpause]).  No path calls
    [setGraceful(False)]. *)
Theorem X17_request_changes_only_its_slave
    (slaves slaves' : gmap string Slave) (slavename path url : string)
    (slave : Slave) (request : Request) :
  slaves !! slavename = Some slave ->
  request_child slaves slavename path request = Done (slaves', url) ->
  (forall other, other <> slavename -> slaves' !! other = slaves !! other) /\
  (slaves' = slaves \/
   (path = "shutdown"%string /\
    slaves' = <[slavename := setGraceful true slave]> slaves) \/
   ((path = "pause"%string \/ path = "unpause"%string) /\
    slaves' = <[slavename := setPaused (String.eqb path "pause") slave]> slaves)).
Proof.
  intros Hslave. unfold request_child, one_slave_getChild. rewrite Hslave.
  destruct (String.eqb_spec path "shutdown") as [->|Hns]; simpl.
  - unfold shutdown_performAction.
    destruct (actionAllowed _ _ _); intros [= <- <-].
    + split; [intros other Hne; by rewrite lookup_insert_ne|]. right; left. done.
    + rewrite insert_id by done. split; [done|by left].
  - destruct (String.eqb_spec path "pause") as [->|Hnp]; simpl.
    + unfold pause_performAction.
      destruct (actionAllowed _ _ _); intros [= <- <-].
      * split; [intros other Hne; by rewrite lookup_insert_ne|].
        right; right. split; [by left|done].
      * rewrite insert_id by done. split; [done|by left].
    + destruct (String.eqb_spec path "unpause") as [->|Hnu]; simpl.
      * unfold pause_performAction.
        destruct (actionAllowed _ _ _); intros [= <- <-].
        -- split; [intros other Hne; by rewrite lookup_insert_ne|].
           right; right. split; [by right|done].
        -- rewrite insert_id by done. split; [done|by left].
      * intros [= <- <-]. split; [done|by left].
Qed.

(** X18. The pause link of the page works as a switch: when the setter
    and the getter of the slave object agree
    ([setPaused(p)] makes [isPaused()] answer [p]) and the authorisation
    allows [pauseSlave], a request for the child that
    [OneBuildSlaveResource.content] links as [pause_url] leaves the slave
    in the other state, and the page then links the opposite child. *)
Theorem X18_pause_link_toggles {L : Type}
    (get_line_values : Build -> L) (int : string -> option Z)
    (status : Status) (args : gmap string (list string))
    (slaves : gmap string Slave) (slavename : string)
    (slave : Slave) (request : Request) (ctx : slave_ctx L) :
  (forall p s, isPaused (setPaused p s) = p) ->
  (forall s, actionAllowed "pauseSlave" request s = true) ->
  slaves !! slavename = Some slave ->
  one_slave_content get_line_values int slaves status args slavename = Done ctx ->
  exists slaves' url ctx',
    request_child slaves slavename (ctx_pause_child ctx) request
      = Done (slaves', url) /\
    (isPaused <$> slaves' !! slavename) = Some (negb (isPaused slave)) /\
    one_slave_content get_line_values int slaves' status args slavename
      = Done ctx' /\
    ctx_pause_child ctx' <> ctx_pause_child ctx /\
    ctx_recent ctx' = ctx_recent ctx /\ ctx_current ctx' = ctx_current ctx.
Proof.
  intros Hlaw Hallowed Hslave.
  unfold one_slave_content. rewrite Hslave.
  destruct (max_builds_of int args) as [m|e] eqn:Hmax; simpl; [|done].
  intros [= <-]. simpl.
  unfold request_child, one_slave_getChild. rewrite Hslave.
  destruct (isPaused slave) eqn:Hp; simpl;
    unfold pause_performAction; rewrite Hallowed;
    (do 3 eexists; split; [done|]);
    rewrite lookup_insert_eq; simpl; rewrite Hlaw;
    (split; [done|]); (split; [done|]); simpl; done.
Qed.
End Resources.

Lemma X15_getChild_witness :
  sample_slaves !! "slave9"%string = None /\
  slaves_getChild (fun s => s) sample_slaves "slave9"
    = NoResource "No such slave 'slave9'" /\
  exists r, one_slave_getChild sample_slaves "slave1" "pause" true = Done r.
Proof.
  pose proof (@X15_getChild_and_unknown_slaves bool flags _ (fun s => s)
                sample_slaves) as Hx.
  split; [reflexivity|]. split.
  - by apply (proj1 (Hx "slave9"%string)).
  - apply (proj1 (proj2 (proj2 (Hx "slave1"%string))) "slave1"%string).
    reflexivity.
Defined.

Lemma X16_refused_request_witness :
  sample_slaves !! "slave1"%string = Some {| graceful := false; paused := false |} /\
  request_child sample_slaves "slave1" "shutdown" false
    = Done (sample_slaves, "authzfail"%string).
Proof.
  split; [reflexivity|].
  by rewrite (X16_refused_request_changes_nothing sample_slaves "slave1"
                "shutdown" {| graceful := false; paused := false |} false).
Defined.

Lemma X17_request_witness :
  sample_slaves !! "slave1"%string = Some {| graceful := false; paused := false |} /\
  request_child sample_slaves "slave1" "shutdown" true
    = Done (<[ "slave1"%string := {| graceful := true; paused := false |} ]>
              sample_slaves, "buildslaves/slave1"%string) /\
  forall other, other <> "slave1"%string ->
    <[ "slave1"%string := {| graceful := true; paused := false |} ]> sample_slaves
      !! other = sample_slaves !! other.
Proof.
  split; [reflexivity|]. split; [reflexivity|].
  apply (X17_request_changes_only_its_slave sample_slaves _ "slave1" "shutdown"
           "buildslaves/slave1" {| graceful := false; paused := false |} true);
    reflexivity.
Defined.

Lemma X18_pause_link_witness :
  let args : gmap string (list string) := {[ "numbuilds"%string := ["1"%string] ]} in
  let slave := {| graceful := false; paused := true |} in
  let ctx := {| ctx_current := [];
                ctx_recent := [(sample_now - 90000, sample_now - 3600)];
                ctx_pause_child := "unpause" |} in
  sample_slaves !! "slave2"%string = Some slave /\
  one_slave_content getTimes (fun _ => Some 1) sample_slaves sample_status args
    "slave2" = Done ctx /\
  exists slaves' url ctx',
    request_child sample_slaves "slave2" (ctx_pause_child ctx) true
      = Done (slaves', url) /\
    (isPaused <$> slaves' !! "slave2"%string) = Some (negb (isPaused slave)) /\
    one_slave_content getTimes (fun _ => Some 1) slaves' sample_status args "slave2"
      = Done ctx' /\
    ctx_pause_child ctx' <> ctx_pause_child ctx /\
    ctx_recent ctx' = ctx_recent ctx /\ ctx_current ctx' = ctx_current ctx.
Proof.
  cbv zeta. split; [reflexivity|]. split; [reflexivity|].
  apply (X18_pause_link_toggles getTimes (fun _ => Some 1) sample_status
           {[ "numbuilds"%string := ["1"%string] ]} sample_slaves "slave2"
           {| graceful := false; paused := true |} true);
    [intros p s; reflexivity|intros s; reflexivity|reflexivity|reflexivity].
Defined.
